(** * Solution1: the QCar line-following harness

    A shallow embedding of
    - [plan_vision_linefollow/qcar.py]  (classes [VLFCar], [EVLFControl],
      [EVLFObserver]),
    - [core/util.py]                    ([handle_interprocess]),
    - [sensor_interfacing/qlabs_setup.py] ([setup]),
    and the properties of the control cycle, the observer cycle, the queue
    helper and the simulation bootstrap that are established on it.

    Conventions.  A Python method becomes a computation in a small monad
    that threads the object's attributes, records every call that leaves the
    object (camera, policy, actuator, clock, console) in a trace, and either
    returns or raises.  Attribute writes made before a [raise] persist, as
    in Python.  Float arithmetic is kept abstract behind [FloatOps], so what
    is proved holds for IEEE doubles with the C library's cosine as well as
    for exact reals; the instance over [R] is used where two commands have
    to be told apart. *)

From Stdlib Require Import ZArith QArith Reals Lra.
From stdpp Require Import base option list gmap strings.

Set Default Proof Using "Type".

(** ** Outcomes of a call *)

Inductive result (E A : Type) : Type :=
| Returns (a : A)
| Raises (e : E).
Arguments Returns {E A} a.
Arguments Raises {E A} e.

(** ** Numbers

    The source uses Python floats through four operations only: numeric
    literals, [*], [abs] and [math.cos].  The first three always return;
    [math.cos] raises [ValueError] on an infinite argument, which is [None]
    here. *)

Class FloatOps (F : Type) : Type := {
  lit : Q → F;              (* a numeric literal of the source text *)
  fmul : F → F → F;         (* x * y *)
  fabs : F → F;             (* abs(x) *)
  fcos : F → option F;      (* math.cos(x), None where it raises *)
}.

(** Exact arithmetic: the reading of the formulas over the reals, where the
    cosine is defined everywhere. *)
#[export] Instance R_FloatOps : FloatOps R := {|
  lit := Q2R;
  fmul := Rmult;
  fabs := Rabs;
  fcos x := Some (cos x);
|}.

Module Qcar.

(** ** Exceptions ([from .exceptions import ...])

    The three control-flow signals of the package, [KeyError] for a failed
    dictionary subscript, [ValueError] for [math.cos] outside its domain, and
    [OtherException] for any further subclass of [Exception] a callee may
    raise. *)

Inductive exn (F : Type) : Type :=
| NoContourException
| NoImageException
| StopException (stop_time : F)
| KeyError (key : string)
| ValueError (message : string)
| OtherException (name : string).
Arguments NoContourException {F}.
Arguments NoImageException {F}.
Arguments StopException {F} stop_time.
Arguments KeyError {F} key.
Arguments ValueError {F} message.
Arguments OtherException {F} name.

(** ** Calls that leave the object *)

Inductive effect (F Image : Type) : Type :=
| IsSet                                   (* event_wrapper.event.is_set() *)
| GetFlag (key : string)                  (* shared_events[key] *)
| ReadImage                               (* front_csi.read_image() *)
| ExecutePolicy (image : Image)           (* policy.execute_policy(image) *)
| ReadWriteStd (throttle steering : F) (LEDs : list Z)
                                          (* running_gear.read_write_std(...) *)
| Sleep (seconds : F)                     (* time.sleep(seconds) *)
| Print (e : exn F)                       (* print(e) *)
| ReadRgbImage                            (* rgbd.read_rgb_image() *)
| RunPipeline (image : Image)             (* pipeline(image) *)
| EventsSet (key : string)                (* events.set(key) *)
| EventsClear (key : string).             (* events.clear(key) *)
Arguments IsSet {F Image}.
Arguments GetFlag {F Image} key.
Arguments ReadImage {F Image}.
Arguments ExecutePolicy {F Image} image.
Arguments ReadWriteStd {F Image} throttle steering LEDs.
Arguments Sleep {F Image} seconds.
Arguments Print {F Image} e.
Arguments ReadRgbImage {F Image}.
Arguments RunPipeline {F Image} image.
Arguments EventsSet {F Image} key.
Arguments EventsClear {F Image} key.

(** ** Collaborators that are imported, not defined, by [qcar.py] *)

(** [policy.VisualLineFollowing]: the attributes and the method the car
    uses.  [execute_policy] may update the policy and may raise. *)
Class VisualLineFollowing (F Image P : Type) : Type := {
  steering : P → F;
  throttle : P → F;
  execute_policy : Image → P → P * option (exn F);
  set_policy_start : F → P → P;          (* policy.start = t *)
}.

(** [decision_pipeline.DecisionMaker]: calling it on a frame, and its
    [detection_flags] dictionary as the sequence of its items. *)
Class DecisionMaker (F Image D : Type) : Type := {
  pipeline_call : Image → D → D * option (exn F);
  detection_flags : D → list (string * bool);
}.

(** [utils.EventWrapper]: an event and a dictionary of named flags. *)
Record EventWrapper : Type := {
  event : bool;                          (* event.is_set() *)
  event_types : gmap string bool;
}.

(** Modelled from the spec: [EventWrapper.set] and [EventWrapper.clear] are
    not part of the sources at hand; the specification describes the
    wrapper as a shared structure of boolean flags that the observer
    republishes, the last write winning.  [set key] makes the flag true and
    [clear key] makes it false. *)
Definition EventWrapper_set (key : string) (w : EventWrapper) : EventWrapper :=
  {| event := event w; event_types := <[key := true]> (event_types w) |}.

Definition EventWrapper_clear (key : string) (w : EventWrapper) : EventWrapper :=
  {| event := event w; event_types := <[key := false]> (event_types w) |}.

(** ** What the outside world answers during one cycle

    The camera reads may raise; the clock is read at most once on every
    path through a cycle, so one reading per cycle is enough.  Calls to the
    actuator, to [time.sleep] and to [print] are taken to return. *)

Record World (F Image : Type) : Type := {
  front_csi : result (exn F) Image;            (* front_csi.read_image() *)
  rgbd : result (exn F) (option Image);        (* rgbd.read_rgb_image() *)
  time_time : F;                               (* time.time() *)
}.
Arguments front_csi {F Image} w.
Arguments rgbd {F Image} w.
Arguments time_time {F Image} w.

(** ** The monad of methods *)

Definition M (F Image S A : Type) : Type :=
  World F Image → S → result (exn F) A * S * list (effect F Image).

Section Methods.
Context {F Image : Type}.

Local Abbreviation M := (M F Image).

Definition ret {S A} (a : A) : M S A := λ _ s, (Returns a, s, []).

Definition bind {S A B} (m : M S A) (k : A → M S B) : M S B :=
  λ w s,
    match m w s with
    | (Returns a, s1, t1) =>
        let '(r, s2, t2) := k a w s1 in (r, s2, t1 ++ t2)
    | (Raises e, s1, t1) => (Raises e, s1, t1)
    end.

Definition raise {S A} (e : exn F) : M S A := λ _ s, (Raises e, s, []).

(** [try: body except ...: handler] where [handler] dispatches on the
    exception (and re-raises what no clause matches). *)
Definition try_except {S A} (body : M S A) (handler : exn F → M S A) : M S A :=
  λ w s,
    match body w s with
    | (Returns a, s1, t1) => (Returns a, s1, t1)
    | (Raises e, s1, t1) =>
        let '(r, s2, t2) := handler e w s1 in (r, s2, t1 ++ t2)
    end.

Definition gets {S A} (f : S → A) : M S A := λ _ s, (Returns (f s), s, []).
Definition modify {S} (f : S → S) : M S unit := λ _ s, (Returns tt, f s, []).
Definition emit {S} (e : effect F Image) : M S unit := λ _ s, (Returns tt, s, [e]).
Definition ask {S A} (f : World F Image → A) : M S A := λ w s, (Returns (f w), s, []).

(** Run a method of an embedded object on the enclosing one. *)
Definition zoom {S T A} (get : T → S) (set : S → T → T) (m : M S A) : M T A :=
  λ w t, let '(r, s, tr) := m w (get t) in (r, set s t, tr).

End Methods.

Declare Scope method_scope.
Delimit Scope method_scope with method.
Notation "x <- m ;; k" := (bind m (λ x, k))
  (at level 100, m at next level, right associativity) : method_scope.
Notation "m ;; k" := (bind m (λ _, k))
  (at level 100, right associativity) : method_scope.
Open Scope method_scope.

(** Projections of a run. *)
Definition outcome {E A S T} (r : result E A * S * list T) : result E A := r.1.1.
Definition final {E A S T} (r : result E A * S * list T) : S := r.1.2.
Definition trace {E A S T} (r : result E A * S * list T) : list T := r.2.

(** ** class VLFCar *)

Section Classes.
Context {F Image P D : Type}.
Context `{!FloatOps F, !VisualLineFollowing F Image P, !DecisionMaker F Image D}.

Local Abbreviation effect := (effect F Image).
Local Abbreviation exn := (exn F).
Local Abbreviation M := (M F Image).

(** The attributes of a [VLFCar] that the methods read or write.  The
    running gear and the camera are devices: calls to them appear in the
    trace and their answers come from the [World]. *)
Record VLFCar : Type := {
  leds : list Z;
  counter : Z;
  policy : P;
  start : F;
}.

Definition set_policy (p : P) (c : VLFCar) : VLFCar :=
  {| leds := leds c; counter := counter c; policy := p; start := start c |}.
Definition set_start (t : F) (c : VLFCar) : VLFCar :=
  {| leds := leds c; counter := counter c; policy := policy c; start := t |}.

(** [VLFCar.__init__] followed by [setup]: the attribute values that do not
    depend on the devices. *)
Definition VLFCar_init (p : P) (now : F) : VLFCar :=
  {| leds := [0; 0; 0; 0; 0; 0; 0; 0]%Z; counter := 0; policy := p; start := now |}.

(** [self.front_csi.read_image()] *)
Definition read_image {S} : M S Image :=
  emit ReadImage;;
  r <- ask front_csi;;
  match r with
  | Returns image => ret image
  | Raises e => raise e
  end.

(** [self.policy.execute_policy(image)] *)
Definition policy_execute_policy (image : Image) : M VLFCar unit :=
  emit (ExecutePolicy image);;
  p <- gets policy;;
  let '(p', r) := execute_policy image p in
  modify (set_policy p');;
  match r with
  | None => ret tt
  | Some e => raise e
  end.

(** [self.running_gear.read_write_std(throttle=..., steering=..., LEDs=self.leds)] *)
Definition read_write_std (th st : F) : M VLFCar unit :=
  l <- gets leds;;
  emit (ReadWriteStd th st l).

(** [math.cos(x)] *)
Definition math_cos {S} (x : F) : M S F :=
  match fcos x with
  | Some c => ret c
  | None => raise (ValueError "math domain error")
  end.

(** [VLFCar.halt_car] *)
Definition halt_car (st : F) : M VLFCar unit :=
  read_write_std (lit 0) st.

(** [VLFCar.execute] *)
Definition VLFCar_execute : M VLFCar unit :=
  try_except
    (_start <- ask time_time;;
     image <- read_image;;
     policy_execute_policy image;;
     st <- gets (λ c, steering (policy c));;
     pt <- gets (λ c, throttle (policy c));;
     cos_st <- math_cos (fmul (lit 2.05) st);;
     read_write_std (fmul pt (fabs cos_st)) st)
    (λ e, match e with
          | NoContourException => ret tt
          | NoImageException => ret tt
          | _ => raise e
          end).

(** ** class EVLFControl(VLFCar) *)

Record EVLFControl : Type := {
  car : VLFCar;                         (* the inherited attributes *)
  event_wrapper : EventWrapper;
  reduce_factor : F;
  halt_steering : F;
}.

Definition set_car (c : VLFCar) (s : EVLFControl) : EVLFControl :=
  {| car := c; event_wrapper := event_wrapper s;
     reduce_factor := reduce_factor s; halt_steering := halt_steering s |}.
Definition set_reduce_factor (x : F) (s : EVLFControl) : EVLFControl :=
  {| car := car s; event_wrapper := event_wrapper s;
     reduce_factor := x; halt_steering := halt_steering s |}.
Definition set_halt_steering (x : F) (s : EVLFControl) : EVLFControl :=
  {| car := car s; event_wrapper := event_wrapper s;
     reduce_factor := reduce_factor s; halt_steering := x |}.

(** [EVLFControl.__init__] *)
Definition EVLFControl_init (w : EventWrapper) (c : VLFCar) : EVLFControl :=
  {| car := c; event_wrapper := w; reduce_factor := lit 1.0; halt_steering := lit 0.0 |}.

(** An inherited method, run on the [VLFCar] part. *)
Definition super {A} (m : M VLFCar A) : M EVLFControl A := zoom car set_car m.

(** [shared_events[key]] *)
Definition shared_event (key : string) : M EVLFControl bool :=
  emit (GetFlag key);;
  flags <- gets (λ s, event_types (event_wrapper s));;
  match flags !! key with
  | Some b => ret b
  | None => raise (KeyError key)
  end.

(** [EVLFControl.handle_events] *)
Definition handle_events : M EVLFControl unit :=
  emit IsSet;;
  is_set <- gets (λ s, event (event_wrapper s));;
  if is_set : bool then
    horizontal_line <- shared_event "horizontal_line";;
    (if horizontal_line : bool
     then modify (set_reduce_factor (lit 0.67))
     else modify (set_reduce_factor (lit 1.0)));;
    red_light <- shared_event "red_light";;
    if red_light : bool then
      st <- gets (λ s, steering (policy (car s)));;
      modify (set_halt_steering st);;
      raise (StopException (lit 0.1))
    else
      stop_sign <- shared_event "stop_sign";;
      if stop_sign : bool then
        let stop_time := lit 3 in
        modify (set_halt_steering (lit 0.0));;
        raise (StopException stop_time)
      else ret tt
  else
    modify (set_reduce_factor (lit 1.0)).

(** The [try] block of [EVLFControl.execute]. *)
Definition EVLFControl_execute_body : M EVLFControl unit :=
  handle_events;;
  csi_image <- read_image;;
  super (policy_execute_policy csi_image);;
  now <- ask time_time;;
  modify (λ s, set_car (set_start now (car s)) s);;
  st <- gets (λ s, steering (policy (car s)));;
  pt <- gets (λ s, throttle (policy (car s)));;
  cos_st <- math_cos (fmul (lit 2.0) st);;
  rf <- gets reduce_factor;;
  super (read_write_std (fmul (fmul pt (fabs cos_st)) rf) st).

(** The [except] clauses of [EVLFControl.execute]. *)
Definition EVLFControl_execute_handler (e : exn) : M EVLFControl unit :=
  match e with
  | NoContourException => ret tt
  | NoImageException => ret tt
  | StopException stop_time =>
      hs <- gets halt_steering;;
      super (halt_car hs);;
      emit (Sleep stop_time);;
      now <- ask time_time;;
      modify (λ s, set_car (set_policy (set_policy_start now (policy (car s))) (car s)) s)
  | _ =>
      emit (Print e);;
      raise e
  end.

(** [EVLFControl.execute] *)
Definition EVLFControl_execute : M EVLFControl unit :=
  try_except EVLFControl_execute_body EVLFControl_execute_handler.

(** ** class EVLFObserver *)

Record EVLFObserver : Type := {
  events : EventWrapper;
  pipeline : D;
}.

Definition set_events (w : EventWrapper) (o : EVLFObserver) : EVLFObserver :=
  {| events := w; pipeline := pipeline o |}.
Definition set_pipeline (d : D) (o : EVLFObserver) : EVLFObserver :=
  {| events := events o; pipeline := d |}.

(** [self.rgbd.read_rgb_image()] *)
Definition read_rgb_image {S} : M S (option Image) :=
  emit ReadRgbImage;;
  r <- ask rgbd;;
  match r with
  | Returns image => ret image
  | Raises e => raise e
  end.

(** [self.pipeline(rgbd_image)] *)
Definition run_pipeline (image : Image) : M EVLFObserver unit :=
  emit (RunPipeline image);;
  d <- gets pipeline;;
  let '(d', r) := pipeline_call image d in
  modify (set_pipeline d');;
  match r with
  | None => ret tt
  | Some e => raise e
  end.

(** [self.events.set(key)] and [self.events.clear(key)] *)
Definition events_set (key : string) : M EVLFObserver unit :=
  emit (EventsSet key);;
  modify (λ o, set_events (EventWrapper_set key (events o)) o).
Definition events_clear (key : string) : M EVLFObserver unit :=
  emit (EventsClear key);;
  modify (λ o, set_events (EventWrapper_clear key (events o)) o).

(** [for key, value in detection_flags.items(): ...] *)
Fixpoint publish (items : list (string * bool)) : M EVLFObserver unit :=
  match items with
  | [] => ret tt
  | (key, value) :: rest =>
      (if value : bool then events_set key else events_clear key);;
      publish rest
  end.

(** [EVLFObserver.execute] *)
Definition EVLFObserver_execute : M EVLFObserver unit :=
  try_except
    (rgbd_image <- read_rgb_image;;
     match rgbd_image with
     | Some image =>
         run_pipeline image;;
         flags <- gets (λ o, detection_flags (pipeline o));;
         publish flags
     | None => ret tt
     end)
    (λ e, emit (Print e);; raise e).

(** ** What a trace shows *)

(** The actuator commands of a trace, as (throttle, steering), in order. *)
Definition commands (t : list effect) : list (F * F) :=
  omap (λ e, match e with ReadWriteStd th st _ => Some (th, st) | _ => None end) t.

(** The pauses of a trace, in order. *)
Definition sleeps (t : list effect) : list F :=
  omap (λ e, match e with Sleep x => Some x | _ => None end) t.

(** Reads of the shared event structure. *)
Definition is_flag_read (e : effect) : bool :=
  match e with
  | IsSet | GetFlag _ => true
  | _ => false
  end.

(** ** Stepping through a method *)

Ltac unfold_methods :=
  unfold EVLFControl_execute, EVLFControl_execute_body, EVLFControl_execute_handler,
    VLFCar_execute, handle_events, shared_event, super, zoom, halt_car,
    read_write_std, policy_execute_policy, read_image, math_cos,
    try_except, bind, ret, raise, gets, modify, emit, ask in *.

Ltac step := unfold_methods; cbn [fst snd car policy leds event_wrapper event_types
  event reduce_factor halt_steering set_car set_policy set_start
  set_reduce_factor set_halt_steering app] in *.

(** The four ways through [handle_events]. *)

Lemma handle_events_not_set (w : World F Image) (s : EVLFControl) :
  event (event_wrapper s) = false →
  handle_events w s = (Returns tt, set_reduce_factor (lit 1.0) s, [IsSet]).
Proof. intros Hev. step. by rewrite Hev. Qed.

Lemma handle_events_red_light (w : World F Image) (s : EVLFControl) (hl : bool) :
  event (event_wrapper s) = true →
  event_types (event_wrapper s) !! "horizontal_line" = Some hl →
  event_types (event_wrapper s) !! "red_light" = Some true →
  handle_events w s =
    (Raises (StopException (lit 0.1)),
     set_halt_steering (steering (policy (car s)))
       (set_reduce_factor (if hl then lit 0.67 else lit 1.0) s),
     [IsSet; GetFlag "horizontal_line"; GetFlag "red_light"]).
Proof.
  intros Hev Hhl Hrl. step. rewrite Hev, Hhl.
  destruct hl; cbn; by rewrite Hrl.
Qed.

Lemma handle_events_stop_sign (w : World F Image) (s : EVLFControl) (hl : bool) :
  event (event_wrapper s) = true →
  event_types (event_wrapper s) !! "horizontal_line" = Some hl →
  event_types (event_wrapper s) !! "red_light" = Some false →
  event_types (event_wrapper s) !! "stop_sign" = Some true →
  handle_events w s =
    (Raises (StopException (lit 3)),
     set_halt_steering (lit 0.0)
       (set_reduce_factor (if hl then lit 0.67 else lit 1.0) s),
     [IsSet; GetFlag "horizontal_line"; GetFlag "red_light"; GetFlag "stop_sign"]).
Proof.
  intros Hev Hhl Hrl Hss. step. rewrite Hev, Hhl.
  destruct hl; cbn; rewrite Hrl; cbn; by rewrite Hss.
Qed.

Lemma handle_events_no_stop (w : World F Image) (s : EVLFControl) (hl : bool) :
  event (event_wrapper s) = true →
  event_types (event_wrapper s) !! "horizontal_line" = Some hl →
  event_types (event_wrapper s) !! "red_light" = Some false →
  event_types (event_wrapper s) !! "stop_sign" = Some false →
  handle_events w s =
    (Returns tt,
     set_reduce_factor (if hl then lit 0.67 else lit 1.0) s,
     [IsSet; GetFlag "horizontal_line"; GetFlag "red_light"; GetFlag "stop_sign"]).
Proof.
  intros Hev Hhl Hrl Hss. step. rewrite Hev, Hhl.
  destruct hl; cbn; rewrite Hrl; cbn; by rewrite Hss.
Qed.

(** Whatever the flags, [handle_events] only reads the shared structure and
    touches no attribute but [reduce_factor] and [halt_steering]. *)
Lemma handle_events_frame (w : World F Image) (s : EVLFControl) :
  car (final (handle_events w s)) = car s
  ∧ event_wrapper (final (handle_events w s)) = event_wrapper s
  ∧ forallb is_flag_read (trace (handle_events w s)) = true
  ∧ head (trace (handle_events w s)) = Some IsSet.
Proof.
  unfold final, trace. step.
  destruct (event (event_wrapper s)); [|done].
  destruct (event_types (event_wrapper s) !! "horizontal_line") as [[]|]; cbn; [| |done];
    (destruct (event_types (event_wrapper s) !! "red_light") as [[]|]; cbn; [done| |done]);
    by destruct (event_types (event_wrapper s) !! "stop_sign") as [[]|].
Qed.

(** The [try] block, by where it is left. *)

Lemma body_events_raise (w : World F Image) (s s1 : EVLFControl) e t1 :
  handle_events w s = (Raises e, s1, t1) →
  EVLFControl_execute_body w s = (Raises e, s1, t1).
Proof. intros Hh. unfold EVLFControl_execute_body, bind at 1. by rewrite Hh. Qed.

Lemma body_camera_raises (w : World F Image) (s s1 : EVLFControl) e t1 :
  handle_events w s = (Returns tt, s1, t1) →
  front_csi w = Raises e →
  EVLFControl_execute_body w s = (Raises e, s1, t1 ++ [ReadImage]).
Proof.
  intros Hh Hc. unfold EVLFControl_execute_body, bind at 1. rewrite Hh.
  step. by rewrite Hc.
Qed.

Lemma body_policy_raises (w : World F Image) (s s1 : EVLFControl) image p' e t1 :
  handle_events w s = (Returns tt, s1, t1) →
  front_csi w = Returns image →
  execute_policy image (policy (car s1)) = (p', Some e) →
  EVLFControl_execute_body w s =
    (Raises e, set_car (set_policy p' (car s1)) s1,
     t1 ++ [ReadImage; ExecutePolicy image]).
Proof.
  intros Hh Hc Hp. unfold EVLFControl_execute_body, bind at 1. rewrite Hh.
  step. rewrite Hc. cbn. by rewrite Hp.
Qed.

Lemma body_cos_raises (w : World F Image) (s s1 : EVLFControl) image p' t1 :
  handle_events w s = (Returns tt, s1, t1) →
  front_csi w = Returns image →
  execute_policy image (policy (car s1)) = (p', None) →
  fcos (fmul (lit 2.0) (steering p')) = None →
  EVLFControl_execute_body w s =
    (Raises (ValueError "math domain error"),
     set_car (set_start (time_time w) (set_policy p' (car s1))) s1,
     t1 ++ [ReadImage; ExecutePolicy image]).
Proof.
  intros Hh Hc Hp Hcos. unfold EVLFControl_execute_body, bind at 1. rewrite Hh.
  step. rewrite Hc. cbn. rewrite Hp. cbn. by rewrite Hcos.
Qed.

Lemma body_returns (w : World F Image) (s s1 : EVLFControl) image p' cos_st t1 :
  handle_events w s = (Returns tt, s1, t1) →
  front_csi w = Returns image →
  execute_policy image (policy (car s1)) = (p', None) →
  fcos (fmul (lit 2.0) (steering p')) = Some cos_st →
  EVLFControl_execute_body w s =
    (Returns tt,
     set_car (set_start (time_time w) (set_policy p' (car s1))) s1,
     t1 ++ [ReadImage; ExecutePolicy image;
            ReadWriteStd
              (fmul (fmul (throttle p') (fabs cos_st)) (reduce_factor s1))
              (steering p') (leds (car s1))]).
Proof.
  intros Hh Hc Hp Hcos. unfold EVLFControl_execute_body, bind at 1. rewrite Hh.
  step. rewrite Hc. cbn. rewrite Hp. cbn. by rewrite Hcos.
Qed.

Lemma execute_body_returns (w : World F Image) (s s1 : EVLFControl) t1 :
  EVLFControl_execute_body w s = (Returns tt, s1, t1) →
  EVLFControl_execute w s = (Returns tt, s1, t1).
Proof. intros Hb. unfold EVLFControl_execute, try_except. by rewrite Hb. Qed.

Lemma execute_body_raises (w : World F Image) (s s1 : EVLFControl) e t1 :
  EVLFControl_execute_body w s = (Raises e, s1, t1) →
  EVLFControl_execute w s =
    (let '(r, s2, t2) := EVLFControl_execute_handler e w s1 in (r, s2, t1 ++ t2)).
Proof. intros Hb. unfold EVLFControl_execute, try_except. by rewrite Hb. Qed.

(** The [except StopException] clause: halt, sleep, restart the policy clock. *)
Lemma handler_stop (w : World F Image) (s : EVLFControl) (stop_time : F) :
  EVLFControl_execute_handler (StopException stop_time) w s =
    (Returns tt,
     set_car (set_policy (set_policy_start (time_time w) (policy (car s))) (car s)) s,
     [ReadWriteStd (lit 0) (halt_steering s) (leds (car s)); Sleep stop_time]).
Proof. by step. Qed.

(** A cycle that [handle_events] stops. *)
Lemma execute_stopped (w : World F Image) (s s1 : EVLFControl) (stop_time : F) t1 :
  handle_events w s = (Raises (StopException stop_time), s1, t1) →
  EVLFControl_execute w s =
    (Returns tt,
     set_car (set_policy (set_policy_start (time_time w) (policy (car s1))) (car s1)) s1,
     t1 ++ [ReadWriteStd (lit 0) (halt_steering s1) (leds (car s1)); Sleep stop_time]).
Proof.
  intros Hh. rewrite (execute_body_raises w s s1 (StopException stop_time) t1).
  - by rewrite handler_stop.
  - by apply body_events_raise.
Qed.

(** Reads of the flags are neither commands nor pauses. *)
Lemma flag_reads_silent (t : list effect) :
  forallb is_flag_read t = true → commands t = [] ∧ sleeps t = [].
Proof.
  induction t as [|e t IH]; [done|].
  cbn [forallb]. intros [He Ht]%andb_prop. destruct (IH Ht) as [Hc Hs].
  unfold commands, sleeps in *. cbn [omap list_omap].
  destruct e; try discriminate He; by rewrite ?Hc, ?Hs.
Qed.

Lemma commands_app (t1 t2 : list effect) :
  commands (t1 ++ t2) = commands t1 ++ commands t2.
Proof. apply omap_app. Qed.

Lemma sleeps_app (t1 t2 : list effect) :
  sleeps (t1 ++ t2) = sleeps t1 ++ sleeps t2.
Proof. apply omap_app. Qed.

(** The value [handle_events] leaves in [reduce_factor]. *)
Lemma handle_events_reduce_factor (w : World F Image) (s : EVLFControl) :
  (event (event_wrapper s) = true →
   is_Some (event_types (event_wrapper s) !! "horizontal_line")) →
  reduce_factor (final (handle_events w s)) =
    if event (event_wrapper s) then
      if event_types (event_wrapper s) !! "horizontal_line" is Some true
      then lit 0.67 else lit 1.0
    else lit 1.0.
Proof.
  intros Hwf. unfold final. step.
  destruct (event (event_wrapper s)); [|done].
  destruct (Hwf eq_refl) as [hl Hhl]. rewrite Hhl.
  destruct hl; cbn;
    (destruct (event_types (event_wrapper s) !! "red_light") as [[]|]; cbn; [done| |done]);
    by destruct (event_types (event_wrapper s) !! "stop_sign") as [[]|].
Qed.

(** Leaving the [try] block by an exception: nothing was commanded, nothing
    slept, and the two attributes are as [handle_events] left them. *)
Lemma body_raises_inv (w : World F Image) (s s1 : EVLFControl) e t1 :
  EVLFControl_execute_body w s = (Raises e, s1, t1) →
  commands t1 = [] ∧ sleeps t1 = []
  ∧ reduce_factor s1 = reduce_factor (final (handle_events w s))
  ∧ halt_steering s1 = halt_steering (final (handle_events w s)).
Proof.
  destruct (handle_events_frame w s) as (_ & _ & Hfr & _).
  destruct (handle_events w s) as [[[[]|e0] s0] t0] eqn:Hh;
    unfold final, trace in *; cbn [fst snd] in *.
  - destruct (front_csi w) as [image|e1] eqn:Hc.
    + destruct (execute_policy image (policy (car s0))) as [p' [e2|]] eqn:Hp.
      * rewrite (body_policy_raises w s s0 image p' e2 t0 Hh Hc Hp).
        intros [= <- <- <-]. rewrite commands_app, sleeps_app.
        destruct (flag_reads_silent t0 Hfr) as [-> ->]. done.
      * destruct (fcos (fmul (lit 2.0) (steering p'))) as [cos_st|] eqn:Hcos.
        -- by rewrite (body_returns w s s0 image p' cos_st t0 Hh Hc Hp Hcos).
        -- rewrite (body_cos_raises w s s0 image p' t0 Hh Hc Hp Hcos).
           intros [= <- <- <-]. rewrite commands_app, sleeps_app.
           destruct (flag_reads_silent t0 Hfr) as [-> ->]. done.
    + rewrite (body_camera_raises w s s0 e1 t0 Hh Hc).
      intros [= <- <- <-]. rewrite commands_app, sleeps_app.
      destruct (flag_reads_silent t0 Hfr) as [-> ->]. done.
  - rewrite (body_events_raise w s s0 e0 t0 Hh).
    intros [= <- <- <-]. destruct (flag_reads_silent t0 Hfr) as [-> ->]. done.
Qed.

(** Leaving the [try] block at its end: one command was written, computed
    from the policy as it is now and the reduce factor. *)
Lemma body_returns_inv (w : World F Image) (s s1 : EVLFControl) t1 :
  EVLFControl_execute_body w s = (Returns tt, s1, t1) →
  (∃ cos_st,
     fcos (fmul (lit 2.0) (steering (policy (car s1)))) = Some cos_st
     ∧ commands t1 =
         [(fmul (fmul (throttle (policy (car s1))) (fabs cos_st)) (reduce_factor s1),
           steering (policy (car s1)))])
  ∧ sleeps t1 = []
  ∧ reduce_factor s1 = reduce_factor (final (handle_events w s)).
Proof.
  destruct (handle_events_frame w s) as (_ & _ & Hfr & _).
  destruct (handle_events w s) as [[[[]|e0] s0] t0] eqn:Hh;
    unfold final, trace in *; cbn [fst snd] in *.
  - destruct (front_csi w) as [image|e1] eqn:Hc.
    + destruct (execute_policy image (policy (car s0))) as [p' [e2|]] eqn:Hp.
      * by rewrite (body_policy_raises w s s0 image p' e2 t0 Hh Hc Hp).
      * destruct (fcos (fmul (lit 2.0) (steering p'))) as [cos_st|] eqn:Hcos.
        -- rewrite (body_returns w s s0 image p' cos_st t0 Hh Hc Hp Hcos).
           intros [= <- <-]. rewrite commands_app, sleeps_app.
           destruct (flag_reads_silent t0 Hfr) as [-> ->].
           split; [|done]. by exists cos_st.
        -- by rewrite (body_cos_raises w s s0 image p' t0 Hh Hc Hp Hcos).
    + by rewrite (body_camera_raises w s s0 e1 t0 Hh Hc).
  - by rewrite (body_events_raise w s s0 e0 t0 Hh).
Qed.

(** ** The traffic events *)

(** C1.  In a cycle in which the shared event is set and the ['red_light']
    flag is true (the flags dictionary holding its ['horizontal_line'] entry),
    [handle_events] records the policy's current steering in [halt_steering]
    and raises [StopException(stop_time=0.1)]; [execute] catches it, writes
    exactly one actuator command, with throttle 0 at the recorded steering,
    sleeps 0.1, and sets the policy's start time to the clock.  Neither the
    camera nor the policy is called, so no policy-computed command is
    written. *)
Theorem red_light_halts_at_current_steering (w : World F Image) (s : EVLFControl) :
  event (event_wrapper s) = true →
  is_Some (event_types (event_wrapper s) !! "horizontal_line") →
  event_types (event_wrapper s) !! "red_light" = Some true →
  let h := handle_events w s in
  let r := EVLFControl_execute w s in
  outcome h = Raises (StopException (lit 0.1))
  ∧ halt_steering (final h) = steering (policy (car s))
  ∧ outcome r = Returns tt
  ∧ trace r = [IsSet; GetFlag "horizontal_line"; GetFlag "red_light";
               ReadWriteStd (lit 0) (steering (policy (car s))) (leds (car s));
               Sleep (lit 0.1)]
  ∧ commands (trace r) = [(lit 0, steering (policy (car s)))]
  ∧ sleeps (trace r) = [lit 0.1]
  ∧ policy (car (final r)) = set_policy_start (time_time w) (policy (car s)).
Proof.
  intros Hev [hl Hhl] Hrl h r. subst h r.
  pose proof (handle_events_red_light w s hl Hev Hhl Hrl) as Hh.
  rewrite (execute_stopped w s _ _ _ Hh), Hh.
  by repeat split.
Qed.

(** C2.  In a cycle in which the shared event is set, ['red_light'] is false
    and ['stop_sign'] is true, [handle_events] sets [halt_steering] to 0.0
    and raises [StopException(stop_time=3)]; [execute] then writes the one
    command throttle 0, steering 0.0 and sleeps 3. *)
Theorem stop_sign_halts_three_seconds (w : World F Image) (s : EVLFControl) :
  event (event_wrapper s) = true →
  is_Some (event_types (event_wrapper s) !! "horizontal_line") →
  event_types (event_wrapper s) !! "red_light" = Some false →
  event_types (event_wrapper s) !! "stop_sign" = Some true →
  let h := handle_events w s in
  let r := EVLFControl_execute w s in
  outcome h = Raises (StopException (lit 3))
  ∧ halt_steering (final h) = lit 0.0
  ∧ outcome r = Returns tt
  ∧ trace r = [IsSet; GetFlag "horizontal_line"; GetFlag "red_light";
               GetFlag "stop_sign";
               ReadWriteStd (lit 0) (lit 0.0) (leds (car s)); Sleep (lit 3)]
  ∧ commands (trace r) = [(lit 0, lit 0.0)]
  ∧ sleeps (trace r) = [lit 3].
Proof.
  intros Hev [hl Hhl] Hrl Hss h r. subst h r.
  pose proof (handle_events_stop_sign w s hl Hev Hhl Hrl Hss) as Hh.
  rewrite (execute_stopped w s _ _ _ Hh), Hh.
  by repeat split.
Qed.

(** C7.  When the event is set and both ['red_light'] and ['stop_sign'] are
    true, the red-light branch is taken: [handle_events] raises
    [StopException(stop_time=0.1)] with [halt_steering] the policy's current
    steering, and it leaves before the ['stop_sign'] entry is even looked
    up; the cycle's only pause is the 0.1 one. *)
Theorem red_light_wins_over_stop_sign (w : World F Image) (s : EVLFControl) :
  event (event_wrapper s) = true →
  is_Some (event_types (event_wrapper s) !! "horizontal_line") →
  event_types (event_wrapper s) !! "red_light" = Some true →
  event_types (event_wrapper s) !! "stop_sign" = Some true →
  let h := handle_events w s in
  outcome h = Raises (StopException (lit 0.1))
  ∧ halt_steering (final h) = steering (policy (car s))
  ∧ ((GetFlag "stop_sign" : effect) ∉ trace h)
  ∧ sleeps (trace (EVLFControl_execute w s)) = [lit 0.1]
  ∧ commands (trace (EVLFControl_execute w s)) = [(lit 0, steering (policy (car s)))].
Proof.
  intros Hev [hl Hhl] Hrl _ h. subst h.
  pose proof (handle_events_red_light w s hl Hev Hhl Hrl) as Hh.
  rewrite (execute_stopped w s _ _ _ Hh), Hh.
  repeat split; try done.
  cbn. rewrite !elem_of_cons, elem_of_nil. by intros [|[|[|]]].
Qed.

(** ** The normal cycle *)

(** C3.  In a cycle that nothing interrupts ([handle_events] returns, the
    camera delivers an image, the policy returns and [math.cos] is defined at
    [2.0 * steering]), [execute] first reads the shared event structure, then
    reads one image, then calls the policy once on that image, then writes
    one actuator command: steering is the policy's steering and throttle is
    the policy's throttle times [abs(cos(2.0 * steering))] times the reduce
    factor. *)
Theorem normal_cycle_reads_flags_image_policy_then_writes
    (w : World F Image) (s : EVLFControl) (image : Image) (cos_st : F) :
  outcome (handle_events w s) = Returns tt →
  front_csi w = Returns image →
  (execute_policy image (policy (car s))).2 = None →
  fcos (fmul (lit 2.0) (steering (execute_policy image (policy (car s))).1))
    = Some cos_st →
  let h := handle_events w s in
  let r := EVLFControl_execute w s in
  let p' := (execute_policy image (policy (car s))).1 in
  let st := steering p' in
  let th := fmul (fmul (throttle p') (fabs cos_st)) (reduce_factor (final h)) in
  outcome r = Returns tt
  ∧ trace r = trace h ++ [ReadImage; ExecutePolicy image;
                          ReadWriteStd th st (leds (car s))]
  ∧ head (trace h) = Some IsSet
  ∧ forallb is_flag_read (trace h) = true
  ∧ commands (trace r) = [(th, st)]
  ∧ policy (car (final r)) = p'.
Proof.
  intros Hout Hc Hp Hcos h r p' st th. subst h r p' st th.
  destruct (handle_events_frame w s) as (Hcar & _ & Hfr & Hhd).
  destruct (handle_events w s) as [[o s0] t0] eqn:Hh.
  unfold outcome, final, trace in *; cbn [fst snd] in *. subst o.
  rewrite <- Hcar in Hp, Hcos |- *.
  destruct (execute_policy image (policy (car s0))) as [p' o] eqn:Hpol.
  cbn [fst snd] in *. subst o.
  rewrite (execute_body_returns w s _ _
             (body_returns w s s0 image p' cos_st t0 Hh Hc Hpol Hcos)).
  cbn [fst snd]. rewrite commands_app.
  destruct (flag_reads_silent t0 Hfr) as [-> _]. done.
Qed.

(** C5.  [handle_events] leaves [reduce_factor] at 0.67 when the event is
    set and ['horizontal_line'] is true, at 1.0 when the event is set and
    ['horizontal_line'] is false, and at 1.0 when the event is not set; the
    value is still there at the end of [execute].  The commanded throttle is
    scaled by it: in a cycle that nothing interrupts, [execute] writes
    exactly one command, and its throttle is the policy's throttle times
    [abs(cos(2.0 * steering))] times this factor; and whatever the cycle,
    a command that is written is either such a scaled one or the halt
    command of a stop (throttle 0, followed by a sleep). *)
Theorem reduce_factor_follows_horizontal_line (w : World F Image) (s : EVLFControl) :
  (event (event_wrapper s) = true →
   is_Some (event_types (event_wrapper s) !! "horizontal_line")) →
  let r := EVLFControl_execute w s in
  let factor :=
    if event (event_wrapper s) then
      if event_types (event_wrapper s) !! "horizontal_line" is Some true
      then lit 0.67 else lit 1.0
    else lit 1.0 in
  reduce_factor (final (handle_events w s)) = factor
  ∧ reduce_factor (final r) = factor
  ∧ (∀ image p' cos_st,
       outcome (handle_events w s) = Returns tt →
       front_csi w = Returns image →
       execute_policy image (policy (car s)) = (p', None) →
       fcos (fmul (lit 2.0) (steering p')) = Some cos_st →
       outcome r = Returns tt
       ∧ commands (trace r) =
           [(fmul (fmul (throttle p') (fabs cos_st)) factor, steering p')])
  ∧ (∀ th st, (th, st) ∈ commands (trace r) →
       (th = lit 0 ∧ sleeps (trace r) ≠ [])
       ∨ (st = steering (policy (car (final r)))
          ∧ ∃ cos_st,
              fcos (fmul (lit 2.0) st) = Some cos_st
              ∧ th = fmul (fmul (throttle (policy (car (final r)))) (fabs cos_st))
                          factor)).
Proof.
  intros Hwf r factor. subst r factor.
  rewrite <- (handle_events_reduce_factor w s Hwf).
  split; [done|].
  assert (reduce_factor (final (EVLFControl_execute w s))
          = reduce_factor (final (handle_events w s))
          ∧ ∀ th st, (th, st) ∈ commands (trace (EVLFControl_execute w s)) →
              (th = lit 0 ∧ sleeps (trace (EVLFControl_execute w s)) ≠ [])
              ∨ (st = steering (policy (car (final (EVLFControl_execute w s))))
                 ∧ ∃ cos_st,
                     fcos (fmul (lit 2.0) st) = Some cos_st
                     ∧ th = fmul (fmul (throttle
                                          (policy (car (final (EVLFControl_execute w s)))))
                                       (fabs cos_st))
                                 (reduce_factor (final (handle_events w s)))))
    as [Hfinal Hall].
  { destruct (EVLFControl_execute_body w s) as [[[[]|e] s1] t1] eqn:Hb.
    - rewrite (execute_body_returns w s s1 t1 Hb).
      destruct (body_returns_inv w s s1 t1 Hb) as ((cos_st & Hcos & Hc) & _ & Hrf).
      unfold final at 1 3 4, trace; cbn [fst snd]. split; [done|].
      intros th st. rewrite Hc, list_elem_of_singleton. intros [= -> ->].
      right. split; [done|]. exists cos_st. by rewrite Hrf.
    - rewrite (execute_body_raises w s s1 e t1 Hb).
      destruct (body_raises_inv w s s1 e t1 Hb) as (Hc & Hs & Hrf & _).
      destruct e; step; unfold final at 1 3 4, trace; cbn [fst snd];
        (split; [done|]); intros th st;
        rewrite commands_app, sleeps_app, Hc, Hs; cbn;
        rewrite ?elem_of_nil, ?list_elem_of_singleton; try done.
      intros [= -> ->]. by left. }
  split; [done|]. split; [|done].
  intros image p' cos_st Hout Hc Hp Hcos.
  destruct (handle_events_frame w s) as (Hcar & _ & Hfr & _).
  destruct (handle_events w s) as [[o s0] t0] eqn:Hh.
  unfold outcome, final, trace in *; cbn [fst snd] in *. subst o.
  rewrite <- Hcar in Hp.
  rewrite (execute_body_returns w s _ _
             (body_returns w s s0 image p' cos_st t0 Hh Hc Hp Hcos)).
  cbn [fst snd]. rewrite commands_app.
  destruct (flag_reads_silent t0 Hfr) as [-> _]. done.
Qed.

(** ** The exceptions *)

(** C4.  When the [try] block of [execute] is left by an exception, no
    command has been written and nothing has slept so far, and
    - [NoContourException] and [NoImageException] end the cycle there:
      [execute] returns with nothing further done;
    - [StopException] makes [execute] write the halt command, sleep the
      exception's [stop_time], restart the policy clock and return;
    - any other exception is printed and raised again.
    So a cycle sleeps exactly when a [StopException] was raised. *)
Theorem execute_dispatches_on_three_exceptions
    (w : World F Image) (s s1 : EVLFControl) (e : exn) (t1 : list effect) :
  EVLFControl_execute_body w s = (Raises e, s1, t1) →
  let r := EVLFControl_execute w s in
  commands t1 = [] ∧ sleeps t1 = []
  ∧ match e with
    | NoContourException | NoImageException =>
        r = (Returns tt, s1, t1) ∧ commands (trace r) = [] ∧ sleeps (trace r) = []
    | StopException stop_time =>
        outcome r = Returns tt
        ∧ trace r = t1 ++ [ReadWriteStd (lit 0) (halt_steering s1) (leds (car s1));
                           Sleep stop_time]
        ∧ commands (trace r) = [(lit 0, halt_steering s1)]
        ∧ sleeps (trace r) = [stop_time]
        ∧ policy (car (final r)) = set_policy_start (time_time w) (policy (car s1))
    | _ =>
        r = (Raises e, s1, t1 ++ [Print e])
        ∧ commands (trace r) = [] ∧ sleeps (trace r) = []
    end.
Proof.
  intros Hb r. subst r.
  destruct (body_raises_inv w s s1 e t1 Hb) as (Hc & Hs & _).
  rewrite (execute_body_raises w s s1 e t1 Hb).
  split; [done|]. split; [done|].
  destruct e; step; unfold outcome, final, trace; cbn [fst snd];
    rewrite ?app_nil_r, ?commands_app, ?sleeps_app, ?Hc, ?Hs; done.
Qed.

(** ** [EVLFControl] against [VLFCar] *)

Lemma VLFCar_execute_returns (w : World F Image) (c : VLFCar) image p' cos_st :
  front_csi w = Returns image →
  execute_policy image (policy c) = (p', None) →
  fcos (fmul (lit 2.05) (steering p')) = Some cos_st →
  VLFCar_execute w c =
    (Returns tt, set_policy p' c,
     [ReadImage; ExecutePolicy image;
      ReadWriteStd (fmul (throttle p') (fabs cos_st)) (steering p') (leds c)]).
Proof. intros Hc Hp Hcos. step. rewrite Hc. cbn. rewrite Hp. cbn. by rewrite Hcos. Qed.

(** C8, as amended.  In a cycle in which the shared event is not set, camera
    and policy return, and [math.cos] is defined at [2.0 * steering] and at
    [2.05 * steering], [EVLFControl.execute] and [VLFCar.execute] (on the
    same image and policy state) each write one command, with the same
    steering; the throttle of [EVLFControl] is
    [policy.throttle * abs(cos(2.0 * steering)) * 1.0], that of [VLFCar] is
    [policy.throttle * abs(cos(2.05 * steering))].  Both leave the policy in
    the same state. *)
Theorem event_free_cycle_same_steering_own_throttle
    (w : World F Image) (s : EVLFControl) (image : Image) (cos_e cos_v : F) :
  event (event_wrapper s) = false →
  front_csi w = Returns image →
  (execute_policy image (policy (car s))).2 = None →
  fcos (fmul (lit 2.0) (steering (execute_policy image (policy (car s))).1))
    = Some cos_e →
  fcos (fmul (lit 2.05) (steering (execute_policy image (policy (car s))).1))
    = Some cos_v →
  let p' := (execute_policy image (policy (car s))).1 in
  let st := steering p' in
  let re := EVLFControl_execute w s in
  let rv := VLFCar_execute w (car s) in
  commands (trace re) = [(fmul (fmul (throttle p') (fabs cos_e)) (lit 1.0), st)]
  ∧ commands (trace rv) = [(fmul (throttle p') (fabs cos_v), st)]
  ∧ (commands (trace re)).*2 = (commands (trace rv)).*2
  ∧ policy (car (final re)) = policy (final rv).
Proof.
  intros Hev Hc Hp Hce Hcv p' st re rv. subst p' st re rv.
  destruct (execute_policy image (policy (car s))) as [p' o] eqn:Hpol.
  cbn [fst snd] in *. subst o.
  pose proof (handle_events_not_set w s Hev) as Hh.
  rewrite (execute_body_returns w s _ _
             (body_returns w s _ image p' cos_e _ Hh Hc Hpol Hce)).
  rewrite (VLFCar_execute_returns w (car s) image p' cos_v Hc Hpol Hcv).
  done.
Qed.

(** ** The observer *)

Ltac step_observer :=
  unfold EVLFObserver_execute, run_pipeline, read_rgb_image, events_set, events_clear,
    try_except, bind, ret, raise, gets, modify, emit, ask in *;
  cbn [fst snd events pipeline set_events set_pipeline app] in *.

(** The calls the loop over [detection_flags.items()] makes. *)
Definition publish_calls (items : list (string * bool)) : list effect :=
  map (λ kv : string * bool, if kv.2 then EventsSet kv.1 else EventsClear kv.1) items.

(** The wrapper after those calls. *)
Definition published (items : list (string * bool)) (w : EventWrapper) : EventWrapper :=
  foldl (λ (w : EventWrapper) (kv : string * bool),
           if kv.2 then EventWrapper_set kv.1 w else EventWrapper_clear kv.1 w)
        w items.

Lemma publish_run (w : World F Image) (items : list (string * bool)) (o : EVLFObserver) :
  publish items w o =
    (Returns tt, set_events (published items (events o)) o, publish_calls items).
Proof.
  revert o. induction items as [|[key value] items IH]; intros o.
  - by destruct o.
  - cbn [publish]. unfold bind at 1.
    destruct value; step_observer; rewrite IH; by destruct o.
Qed.

Lemma published_event (items : list (string * bool)) (w : EventWrapper) :
  event (published items w) = event w.
Proof.
  unfold published. revert w.
  induction items as [|[key []] items IH]; intros w; [done|..];
    cbn [foldl snd fst]; by rewrite IH.
Qed.

(** A key the loop does not visit keeps its flag. *)
Lemma published_other (items : list (string * bool)) (w : EventWrapper) (k : string) :
  k ∉ items.*1 →
  event_types (published items w) !! k = event_types w !! k.
Proof.
  unfold published. revert w.
  induction items as [|[key value] items IH]; intros w Hk; [done|].
  cbn in Hk. apply not_elem_of_cons in Hk as [Hne Hk].
  cbn [foldl fst snd]. rewrite (IH _ Hk).
  destruct value; cbn; by rewrite lookup_insert_ne.
Qed.

(** A key the loop visits once ends with the value it had there. *)
Lemma published_item (items : list (string * bool)) (w : EventWrapper) (k : string) (v : bool) :
  NoDup items.*1 →
  (k, v) ∈ items →
  event_types (published items w) !! k = Some v.
Proof.
  revert w. induction items as [|[key value] items IH]; intros w Hnd Hin.
  - by apply elem_of_nil in Hin.
  - cbn in Hnd. apply NoDup_cons in Hnd as [Hfresh Hnd].
    change (published ((key, value) :: items) w)
      with (published items
              (if value then EventWrapper_set key w else EventWrapper_clear key w)).
    apply elem_of_cons in Hin as [[= -> ->]|Hin].
    + rewrite (published_other _ _ _ Hfresh).
      destruct value; cbn; by rewrite lookup_insert_eq.
    + by apply IH.
Qed.

(** C6.  In an observer cycle in which a frame (not [None]) is read and the
    pipeline call returns, [execute] runs the pipeline once on that frame
    and then walks the items of [detection_flags] in order, calling
    [events.set(key)] where the value is true and [events.clear(key)] where
    it is false.  Afterwards every key of the dictionary has exactly its
    detected value in the shared flags, whatever was there before, and the
    flags of other keys are untouched. *)
Theorem observer_republishes_detection_flags
    (w : World F Image) (o : EVLFObserver) (image : Image) :
  rgbd w = Returns (Some image) →
  (pipeline_call image (pipeline o)).2 = None →
  NoDup (detection_flags (pipeline_call image (pipeline o)).1).*1 →
  let d' := (pipeline_call image (pipeline o)).1 in
  let r := EVLFObserver_execute w o in
  outcome r = Returns tt
  ∧ trace r =
      [ReadRgbImage; RunPipeline image]
      ++ map (λ kv : string * bool, if kv.2 then EventsSet kv.1 else EventsClear kv.1)
             (detection_flags d')
  ∧ pipeline (final r) = d'
  ∧ (∀ k v, (k, v) ∈ detection_flags d' →
            event_types (events (final r)) !! k = Some v)
  ∧ (∀ k, k ∉ (detection_flags d').*1 →
          event_types (events (final r)) !! k = event_types (events o) !! k).
Proof.
  intros Hread Hret Hnd d' r. subst d' r.
  destruct (pipeline_call image (pipeline o)) as [d' res] eqn:Hp.
  cbn [fst snd] in *. subst res.
  assert (EVLFObserver_execute w o =
            (Returns tt,
             set_events (published (detection_flags d') (events o)) (set_pipeline d' o),
             [ReadRgbImage; RunPipeline image] ++ publish_calls (detection_flags d')))
    as ->.
  { step_observer. rewrite Hread. cbn. rewrite Hp. cbn.
    by rewrite publish_run. }
  unfold outcome, final, trace; cbn [fst snd events pipeline set_events set_pipeline].
  repeat split; try done.
  - intros k v Hin. by apply published_item.
  - intros k Hk. by apply published_other.
Qed.

(** ** More on [VLFCar.execute] *)

Lemma VLFCar_execute_camera_raises (w : World F Image) (c : VLFCar) e :
  front_csi w = Raises e →
  VLFCar_execute w c =
    (match e with
     | NoContourException | NoImageException => Returns tt
     | _ => Raises e
     end, c, [ReadImage]).
Proof. intros Hc. step. rewrite Hc. by destruct e, c. Qed.

Lemma VLFCar_execute_policy_raises (w : World F Image) (c : VLFCar) image p' e :
  front_csi w = Returns image →
  execute_policy image (policy c) = (p', Some e) →
  VLFCar_execute w c =
    (match e with
     | NoContourException | NoImageException => Returns tt
     | _ => Raises e
     end, set_policy p' c, [ReadImage; ExecutePolicy image]).
Proof. intros Hc Hp. step. rewrite Hc. cbn. rewrite Hp. by destruct e. Qed.

Lemma VLFCar_execute_cos_raises (w : World F Image) (c : VLFCar) image p' :
  front_csi w = Returns image →
  execute_policy image (policy c) = (p', None) →
  fcos (fmul (lit 2.05) (steering p')) = None →
  VLFCar_execute w c =
    (Raises (ValueError "math domain error"), set_policy p' c,
     [ReadImage; ExecutePolicy image]).
Proof. intros Hc Hp Hcos. step. rewrite Hc. cbn. rewrite Hp. cbn. by rewrite Hcos. Qed.

(** X1.  [VLFCar.execute] has no stop handling.  Whatever the camera or the
    policy raises, no command is written and nothing sleeps or is printed;
    [NoContourException] and [NoImageException] end the cycle silently and
    every other exception, [StopException] included, leaves [execute]
    unhandled. *)
Theorem VLFCar_execute_skips_or_propagates (w : World F Image) (c : VLFCar) (e : exn) :
  front_csi w = Raises e
  ∨ (∃ image, front_csi w = Returns image
              ∧ (execute_policy image (policy c)).2 = Some e) →
  let r := VLFCar_execute w c in
  commands (trace r) = []
  ∧ sleeps (trace r) = []
  ∧ (∀ x, Print x ∉ trace r)
  ∧ outcome r = match e with
                | NoContourException | NoImageException => Returns tt
                | _ => Raises e
                end.
Proof.
  intros [Hc|(image & Hc & Hp)] r; subst r.
  - rewrite (VLFCar_execute_camera_raises w c e Hc).
    repeat split; try done. intros x Hx. by apply list_elem_of_singleton in Hx.
  - destruct (execute_policy image (policy c)) as [p' o] eqn:Hpol.
    cbn in Hp. subst o.
    rewrite (VLFCar_execute_policy_raises w c image p' e Hc Hpol).
    repeat split; try done.
    intros x Hx. unfold trace in Hx; cbn [snd] in Hx.
    rewrite !elem_of_cons, elem_of_nil in Hx. by destruct Hx as [|[|]].
Qed.

(** X2.  [VLFCar.execute] writes at most one command per cycle, never
    sleeps, and changes no attribute of the car but the policy: [leds],
    [counter] and [self.start] are as before (the clock value it reads goes
    to a local variable).  The LEDs of a command are the [leds] attribute. *)
Theorem VLFCar_execute_changes_only_policy (w : World F Image) (c : VLFCar) :
  let r := VLFCar_execute w c in
  leds (final r) = leds c
  ∧ counter (final r) = counter c
  ∧ start (final r) = start c
  ∧ length (commands (trace r)) ≤ 1
  ∧ sleeps (trace r) = []
  ∧ (∀ th st l, ReadWriteStd th st l ∈ trace r → l = leds c).
Proof.
  intros r. subst r.
  destruct (front_csi w) as [image|e] eqn:Hc.
  - destruct (execute_policy image (policy c)) as [p' [e|]] eqn:Hp.
    + rewrite (VLFCar_execute_policy_raises w c image p' e Hc Hp).
      unfold final, trace; cbn [fst snd]. repeat split; try done; try (cbn; lia).
      intros th st l Hx. rewrite !elem_of_cons, elem_of_nil in Hx.
      by destruct Hx as [|[|]].
    + destruct (fcos (fmul (lit 2.05) (steering p'))) as [cos_st|] eqn:Hcos.
      * rewrite (VLFCar_execute_returns w c image p' cos_st Hc Hp Hcos).
        unfold final, trace; cbn [fst snd]. repeat split; try done.
        intros th st l Hx. rewrite !elem_of_cons, elem_of_nil in Hx.
        destruct Hx as [|[|[|]]]; try done. congruence.
      * rewrite (VLFCar_execute_cos_raises w c image p' Hc Hp Hcos).
        unfold final, trace; cbn [fst snd]. repeat split; try done; try (cbn; lia).
        intros th st l Hx. rewrite !elem_of_cons, elem_of_nil in Hx.
        by destruct Hx as [|[|]].
  - rewrite (VLFCar_execute_camera_raises w c e Hc).
    unfold final, trace; cbn [fst snd]. repeat split; try done; try (cbn; lia).
    intros th st l Hx. by apply list_elem_of_singleton in Hx.
Qed.

(** ** More on [EVLFControl.execute] *)

Lemma flag_reads_no_write (t : list effect) th st l :
  forallb is_flag_read t = true → ReadWriteStd th st l ∉ t.
Proof.
  intros Hfr Hin. rewrite forallb_forall in Hfr.
  apply list_elem_of_In in Hin. by specialize (Hfr _ Hin).
Qed.

Lemma flag_reads_no_print (t : list effect) x :
  forallb is_flag_read t = true → Print x ∉ t.
Proof.
  intros Hfr Hin. rewrite forallb_forall in Hfr.
  apply list_elem_of_In in Hin. by specialize (Hfr _ Hin).
Qed.

(** What the [try] block leaves alone.  [self.start] is assigned after the
    policy call, so it has its old value whenever the block is left before
    that, and the clock value when the block ends or the cosine fails. *)
Lemma body_frame (w : World F Image) (s s1 : EVLFControl) r t1 :
  EVLFControl_execute_body w s = (r, s1, t1) →
  event_wrapper s1 = event_wrapper s
  ∧ leds (car s1) = leds (car s)
  ∧ counter (car s1) = counter (car s)
  ∧ match r with
    | Returns _ => start (car s1) = time_time w
    | Raises e =>
        start (car s1) = start (car s)
        ∨ (start (car s1) = time_time w
           ∧ e = ValueError "math domain error"
           ∧ ∃ image, front_csi w = Returns image ∧ ExecutePolicy image ∈ t1)
    end
  ∧ reduce_factor s1 = reduce_factor (final (handle_events w s))
  ∧ halt_steering s1 = halt_steering (final (handle_events w s))
  ∧ (∀ th st l, ReadWriteStd th st l ∈ t1 → l = leds (car s))
  ∧ (∀ x, Print x ∉ t1).
Proof.
  destruct (handle_events_frame w s) as (Hcar & Hwr & Hfr & _).
  destruct (handle_events w s) as [[[[]|e0] s0] t0] eqn:Hh;
    unfold final, trace in *; cbn [fst snd] in *.
  - destruct (front_csi w) as [image|e1] eqn:Hc.
    + destruct (execute_policy image (policy (car s0))) as [p' [e2|]] eqn:Hp.
      * rewrite (body_policy_raises w s s0 image p' e2 t0 Hh Hc Hp).
        intros [= <- <- <-]. cbn. rewrite Hcar, Hwr.
        do 3 (split; [done|]). split; [by left|].
        do 2 (split; [done|]). split.
        -- intros th st l [Hin|Hin]%elem_of_app.
           ++ by apply flag_reads_no_write in Hin.
           ++ rewrite !elem_of_cons, elem_of_nil in Hin. by destruct Hin as [|[|]].
        -- intros x [Hin|Hin]%elem_of_app.
           ++ by apply flag_reads_no_print in Hin.
           ++ rewrite !elem_of_cons, elem_of_nil in Hin. by destruct Hin as [|[|]].
      * destruct (fcos (fmul (lit 2.0) (steering p'))) as [cos_st|] eqn:Hcos.
        -- rewrite (body_returns w s s0 image p' cos_st t0 Hh Hc Hp Hcos).
           intros [= <- <- <-]. cbn. rewrite Hcar, Hwr. repeat split; try done.
           ++ intros th st l [Hin|Hin]%elem_of_app.
              ** by apply flag_reads_no_write in Hin.
              ** rewrite !elem_of_cons, elem_of_nil in Hin.
                 destruct Hin as [|[|[|]]]; try done. congruence.
           ++ intros x [Hin|Hin]%elem_of_app.
              ** by apply flag_reads_no_print in Hin.
              ** rewrite !elem_of_cons, elem_of_nil in Hin.
                 by destruct Hin as [|[|[|]]].
        -- rewrite (body_cos_raises w s s0 image p' t0 Hh Hc Hp Hcos).
           intros [= <- <- <-]. cbn. rewrite Hcar, Hwr.
           do 3 (split; [done|]). split.
           { right. split; [done|]. split; [done|]. exists image. split; [done|].
             rewrite elem_of_app, !elem_of_cons. auto. }
           do 2 (split; [done|]). split.
           ++ intros th st l [Hin|Hin]%elem_of_app.
              ** by apply flag_reads_no_write in Hin.
              ** rewrite !elem_of_cons, elem_of_nil in Hin. by destruct Hin as [|[|]].
           ++ intros x [Hin|Hin]%elem_of_app.
              ** by apply flag_reads_no_print in Hin.
              ** rewrite !elem_of_cons, elem_of_nil in Hin. by destruct Hin as [|[|]].
    + rewrite (body_camera_raises w s s0 e1 t0 Hh Hc).
      intros [= <- <- <-]. rewrite Hcar, Hwr.
      do 3 (split; [done|]). split; [by left|].
      do 2 (split; [done|]). split.
      * intros th st l [Hin|Hin]%elem_of_app.
        -- by apply flag_reads_no_write in Hin.
        -- by apply list_elem_of_singleton in Hin.
      * intros x [Hin|Hin]%elem_of_app.
        -- by apply flag_reads_no_print in Hin.
        -- by apply list_elem_of_singleton in Hin.
  - rewrite (body_events_raise w s s0 e0 t0 Hh).
    intros [= <- <- <-]. rewrite Hcar, Hwr.
    do 3 (split; [done|]). split; [by left|].
    do 2 (split; [done|]). split.
    + intros th st l Hin. by apply flag_reads_no_write in Hin.
    + intros x Hin. by apply flag_reads_no_print in Hin.
Qed.

(** What the [except] clauses leave alone. *)
Lemma handler_frame (w : World F Image) (s : EVLFControl) (e : exn) :
  let r := EVLFControl_execute_handler e w s in
  event_wrapper (final r) = event_wrapper s
  ∧ leds (car (final r)) = leds (car s)
  ∧ counter (car (final r)) = counter (car s)
  ∧ start (car (final r)) = start (car s)
  ∧ reduce_factor (final r) = reduce_factor s
  ∧ halt_steering (final r) = halt_steering s
  ∧ (∀ th st l, ReadWriteStd th st l ∈ trace r → l = leds (car s)).
Proof.
  destruct e; step; unfold final, trace; cbn [fst snd]; repeat split; try done;
    intros th st l Hin; rewrite ?elem_of_cons, ?elem_of_nil in Hin;
    try done; try (by destruct Hin).
  destruct Hin as [|[|]]; try done. congruence.
Qed.

(** X3.  [EVLFControl.execute] only reads the shared event structure: in
    every cycle, however it ends, the event wrapper, [leds] and [counter] are
    unchanged, [reduce_factor] and [halt_steering] are as [handle_events]
    left them, and every command carries the [leds] attribute as its LEDs. *)
Theorem EVLFControl_execute_reads_flags_only (w : World F Image) (s : EVLFControl) :
  let r := EVLFControl_execute w s in
  event_wrapper (final r) = event_wrapper s
  ∧ leds (car (final r)) = leds (car s)
  ∧ counter (car (final r)) = counter (car s)
  ∧ reduce_factor (final r) = reduce_factor (final (handle_events w s))
  ∧ halt_steering (final r) = halt_steering (final (handle_events w s))
  ∧ (∀ th st l, ReadWriteStd th st l ∈ trace r → l = leds (car s)).
Proof.
  intros r. subst r.
  destruct (EVLFControl_execute_body w s) as [[[[]|e] s1] t1] eqn:Hb.
  - rewrite (execute_body_returns w s s1 t1 Hb).
    destruct (body_frame w s s1 _ t1 Hb) as (Hw & Hl & Hn & _ & Hrf & Hhs & Hled & _).
    unfold final, trace in *; cbn [fst snd] in *. by repeat split.
  - rewrite (execute_body_raises w s s1 e t1 Hb).
    destruct (body_frame w s s1 _ t1 Hb) as (Hw & Hl & Hn & _ & Hrf & Hhs & Hled & _).
    destruct (handler_frame w s1 e) as (Hw' & Hl' & Hn' & _ & Hrf' & Hhs' & Hled').
    destruct (EVLFControl_execute_handler e w s1) as [[r2 s2] t2].
    unfold final, trace in *; cbn [fst snd] in *.
    repeat split; try congruence.
    intros th st l [Hin|Hin]%elem_of_app.
    + by apply Hled in Hin.
    + apply Hled' in Hin. congruence.
Qed.

(** X4.  A cycle of [EVLFControl.execute] writes at most one command and
    sleeps at most once.  If it sleeps, it has returned normally, its one
    command is the halt command (throttle 0 at [halt_steering]) and
    [self.start] is untouched. *)
Theorem EVLFControl_execute_one_command_per_cycle (w : World F Image) (s : EVLFControl) :
  let r := EVLFControl_execute w s in
  length (commands (trace r)) ≤ 1
  ∧ length (sleeps (trace r)) ≤ 1
  ∧ (sleeps (trace r) ≠ [] →
     outcome r = Returns tt
     ∧ commands (trace r) = [(lit 0, halt_steering (final r))]
     ∧ start (car (final r)) = start (car s)).
Proof.
  intros r. subst r.
  destruct (EVLFControl_execute_body w s) as [[[[]|e] s1] t1] eqn:Hb.
  - rewrite (execute_body_returns w s s1 t1 Hb).
    destruct (body_returns_inv w s s1 t1 Hb) as ((cos_st & _ & Hc) & Hs & _).
    unfold trace; cbn [fst snd]. rewrite Hc, Hs. cbn.
    split; [lia|]. split; [lia|done].
  - rewrite (execute_body_raises w s s1 e t1 Hb).
    destruct (body_raises_inv w s s1 e t1 Hb) as (Hc & Hs & _).
    destruct (body_frame w s s1 _ t1 Hb) as (_ & _ & _ & Hst & _).
    destruct e; step; unfold outcome, final, trace; cbn [fst snd];
      rewrite ?app_nil_r, ?commands_app, ?sleeps_app, ?Hc, ?Hs; cbn;
      (split; [lia|]); (split; [lia|]); try done.
    intros _. split; [done|]. split; [done|].
    by destruct Hst as [Hst|(_ & [=] & _)].
Qed.

(** X5.  An exception (of class [Exception]) leaves [EVLFControl.execute]
    only after it has been printed, as the last thing the cycle does; it is
    none of the three control-flow signals, and the cycle has written no
    command and has not slept.  [self.start] is as before, with one
    exception: when [math.cos] raised [ValueError] after the policy had
    returned, [self.start] has already been set to the clock. *)
Theorem EVLFControl_execute_raises_after_print
    (w : World F Image) (s : EVLFControl) (e : exn) :
  outcome (EVLFControl_execute w s) = Raises e →
  let r := EVLFControl_execute w s in
  match e with
  | NoContourException | NoImageException | StopException _ => False
  | _ => True
  end
  ∧ last (trace r) = Some (Print e)
  ∧ commands (trace r) = []
  ∧ sleeps (trace r) = []
  ∧ (start (car (final r)) = start (car s)
     ∨ (start (car (final r)) = time_time w
        ∧ e = ValueError "math domain error"
        ∧ ∃ image, front_csi w = Returns image ∧ ExecutePolicy image ∈ trace r)).
Proof.
  intros Hout r. subst r. revert Hout.
  destruct (EVLFControl_execute_body w s) as [[[[]|e0] s1] t1] eqn:Hb.
  - by rewrite (execute_body_returns w s s1 t1 Hb).
  - rewrite (execute_body_raises w s s1 e0 t1 Hb).
    destruct (body_raises_inv w s s1 e0 t1 Hb) as (Hc & Hs & _).
    destruct (body_frame w s s1 _ t1 Hb) as (_ & _ & _ & Hst & _).
    destruct e0; step; unfold outcome, final, trace; cbn [fst snd];
      try done; intros [= <-];
      rewrite commands_app, sleeps_app, Hc, Hs, last_snoc;
      do 4 (split; [done|]);
      (destruct Hst as [Hst|(Hst & Hv & image & Hcam & Hin)]; [by left|]);
      right; (split; [done|]); (split; [done|]);
      exists image; (split; [done|]); rewrite elem_of_app; by left.
Qed.

Lemma execute_key_error (w : World F Image) (s s1 : EVLFControl) (k : string) t1 :
  handle_events w s = (Raises (KeyError k), s1, t1) →
  EVLFControl_execute w s = (Raises (KeyError k), s1, t1 ++ [Print (KeyError k)]).
Proof.
  intros Hh.
  rewrite (execute_body_raises w s s1 (KeyError k) t1 (body_events_raise w s s1 _ t1 Hh)).
  by step.
Qed.

(** X6.  A flag that is missing from the dictionary when it is subscripted
    ends the cycle with [KeyError] for that very key, printed and raised
    again: ['horizontal_line'] if it is missing, else ['red_light'] if it is
    missing, else ['stop_sign'] (which is subscripted only when 'red_light'
    is false).  Camera, policy and actuator are not reached, the car is as
    before, and [reduce_factor] keeps its old value only if it was
    'horizontal_line' that was missing. *)
Theorem missing_flag_raises_KeyError (w : World F Image) (s : EVLFControl) :
  event (event_wrapper s) = true →
  event_types (event_wrapper s) !! "horizontal_line" = None
  ∨ event_types (event_wrapper s) !! "red_light" = None
  ∨ (event_types (event_wrapper s) !! "red_light" = Some false
     ∧ event_types (event_wrapper s) !! "stop_sign" = None) →
  let r := EVLFControl_execute w s in
  let k : string :=
    if event_types (event_wrapper s) !! "horizontal_line" is None
    then "horizontal_line"
    else if event_types (event_wrapper s) !! "red_light" is None
         then "red_light"
         else "stop_sign" in
  event_types (event_wrapper s) !! k = None
  ∧ outcome r = Raises (KeyError k)
  ∧ last (trace r) = Some (Print (KeyError k))
  ∧ last (removelast (trace r)) = Some (GetFlag k)
  ∧ forallb is_flag_read (removelast (trace r)) = true
  ∧ car (final r) = car s
  ∧ halt_steering (final r) = halt_steering s
  ∧ reduce_factor (final r) =
      match event_types (event_wrapper s) !! "horizontal_line" with
      | None => reduce_factor s
      | Some true => lit 0.67
      | Some false => lit 1.0
      end.
Proof.
  intros Hev Hmiss r k. subst r k.
  destruct (event_types (event_wrapper s) !! "horizontal_line") as [hl|] eqn:Hhl.
  - destruct (event_types (event_wrapper s) !! "red_light") as [[]|] eqn:Hrl.
    + by destruct Hmiss as [|[|[]]].
    + assert (event_types (event_wrapper s) !! "stop_sign" = None) as Hss
        by (by destruct Hmiss as [|[|[]]]).
      assert (handle_events w s =
                (Raises (KeyError "stop_sign"),
                 set_reduce_factor (if hl then lit 0.67 else lit 1.0) s,
                 [IsSet; GetFlag "horizontal_line"; GetFlag "red_light";
                  GetFlag "stop_sign"])) as Hh.
      { step. rewrite Hev, Hhl. destruct hl; cbn; rewrite Hrl; cbn; by rewrite Hss. }
      rewrite (execute_key_error w s _ _ _ Hh).
      unfold outcome, final, trace; cbn. by destruct hl.
    + assert (handle_events w s =
                (Raises (KeyError "red_light"),
                 set_reduce_factor (if hl then lit 0.67 else lit 1.0) s,
                 [IsSet; GetFlag "horizontal_line"; GetFlag "red_light"])) as Hh.
      { step. rewrite Hev, Hhl. destruct hl; cbn; by rewrite Hrl. }
      rewrite (execute_key_error w s _ _ _ Hh).
      unfold outcome, final, trace; cbn. by destruct hl.
  - assert (handle_events w s =
              (Raises (KeyError "horizontal_line"), s,
               [IsSet; GetFlag "horizontal_line"])) as Hh.
    { step. by rewrite Hev, Hhl. }
    rewrite (execute_key_error w s _ _ _ Hh).
    by unfold outcome, final, trace; cbn.
Qed.

(** The control object with other flags in its wrapper's dictionary. *)
Definition with_event_types (flags : gmap string bool) (s : EVLFControl) : EVLFControl :=
  {| car := car s;
     event_wrapper := {| event := event (event_wrapper s); event_types := flags |};
     reduce_factor := reduce_factor s;
     halt_steering := halt_steering s |}.

Lemma handler_ignores_flags (w : World F Image) (s : EVLFControl) (e : exn) flags :
  EVLFControl_execute_handler e w (with_event_types flags s) =
    (let '(r, s2, t2) := EVLFControl_execute_handler e w s in
     (r, with_event_types flags s2, t2)).
Proof. destruct e; by step. Qed.

(** X7.  While the event is not set the flags do not matter: with any other
    dictionary in the wrapper (true flags, missing keys) the cycle ends the
    same way, makes the same calls and leaves the same attributes. *)
Theorem unset_event_hides_flags
    (w : World F Image) (s : EVLFControl) (flags : gmap string bool) :
  event (event_wrapper s) = false →
  let r := EVLFControl_execute w s in
  let r' := EVLFControl_execute w (with_event_types flags s) in
  outcome r' = outcome r
  ∧ trace r' = trace r
  ∧ final r' = with_event_types flags (final r)
  ∧ GetFlag "red_light" ∉ trace r.
Proof.
  intros Hev r r'. subst r r'.
  pose proof (handle_events_not_set w s Hev) as Hh.
  pose proof (handle_events_not_set w (with_event_types flags s) Hev) as Hh'.
  set (s0 := set_reduce_factor (lit 1.0) s) in *.
  set (s0' := set_reduce_factor (lit 1.0) (with_event_types flags s)) in *.
  destruct (front_csi w) as [image|e] eqn:Hc.
  - destruct (execute_policy image (policy (car s))) as [p' [e|]] eqn:Hp.
    + rewrite (execute_body_raises w _ _ _ _ (body_policy_raises w _ s0' image p' e _ Hh' Hc Hp)).
      rewrite (execute_body_raises w _ _ _ _ (body_policy_raises w _ s0 image p' e _ Hh Hc Hp)).
      change (set_car (set_policy p' (car s0')) s0')
        with (with_event_types flags (set_car (set_policy p' (car s0)) s0)).
      rewrite handler_ignores_flags.
      destruct (EVLFControl_execute_handler e w _) as [[r2 s2] t2] eqn:Hhd.
      unfold outcome, final, trace; cbn [fst snd]. repeat split; try done.
      intros [Hin|Hin]%elem_of_app.
      * cbn in Hin. rewrite !elem_of_cons, elem_of_nil in Hin. intuition discriminate.
      * destruct e; step; injection Hhd as <- <- <-;
          rewrite ?elem_of_cons, ?elem_of_nil in Hin; intuition discriminate.
    + destruct (fcos (fmul (lit 2.0) (steering p'))) as [cos_st|] eqn:Hcos.
      * rewrite (execute_body_returns w _ _ _
                   (body_returns w _ s0' image p' cos_st _ Hh' Hc Hp Hcos)).
        rewrite (execute_body_returns w _ _ _
                   (body_returns w _ s0 image p' cos_st _ Hh Hc Hp Hcos)).
        unfold outcome, final, trace; cbn [fst snd]. repeat split; try done.
        intros Hin. cbn in Hin. rewrite !elem_of_cons, elem_of_nil in Hin.
        intuition discriminate.
      * rewrite (execute_body_raises w _ _ _ _
                   (body_cos_raises w _ s0' image p' _ Hh' Hc Hp Hcos)).
        rewrite (execute_body_raises w _ _ _ _
                   (body_cos_raises w _ s0 image p' _ Hh Hc Hp Hcos)).
        step. unfold outcome, final, trace; cbn [fst snd]. repeat split; try done.
        intros Hin. cbn in Hin. rewrite !elem_of_cons, elem_of_nil in Hin.
        intuition discriminate.
  - rewrite (execute_body_raises w _ _ _ _ (body_camera_raises w _ s0' e _ Hh' Hc)).
    rewrite (execute_body_raises w _ _ _ _ (body_camera_raises w _ s0 e _ Hh Hc)).
    change s0' with (with_event_types flags s0).
    rewrite handler_ignores_flags.
    destruct (EVLFControl_execute_handler e w _) as [[r2 s2] t2] eqn:Hhd.
    unfold outcome, final, trace; cbn [fst snd]. repeat split; try done.
    intros [Hin|Hin]%elem_of_app.
    + cbn in Hin. rewrite !elem_of_cons, elem_of_nil in Hin. intuition discriminate.
    + destruct e; step; injection Hhd as <- <- <-;
        rewrite ?elem_of_cons, ?elem_of_nil in Hin; intuition discriminate.
Qed.

(** ** Cycle after cycle *)

(** Consecutive calls [m(); m(); ...] of a method, the world answering each
    call in turn; an exception ends the sequence. *)
Fixpoint cycles {S} (m : M S unit) (ws : list (World F Image)) : S →
    result exn unit * S * list effect :=
  λ s,
    match ws with
    | [] => (Returns tt, s, [])
    | w :: rest =>
        match m w s with
        | (Returns _, s1, t1) =>
            let '(r, s2, t2) := cycles m rest s1 in (r, s2, t1 ++ t2)
        | (Raises e, s1, t1) => (Raises e, s1, t1)
        end
    end.

(** X8.  The control never clears a flag.  As long as the event stays set
    with ['stop_sign'] true and ['red_light'] false, every consecutive cycle
    halts again: the calls are one halt command (throttle 0, steering 0.0)
    and one 3-second sleep per cycle, the camera and the policy are never
    called, and the wrapper is still as it was. *)
Theorem stop_sign_holds_the_car
    (ws : list (World F Image)) (s : EVLFControl) :
  event (event_wrapper s) = true →
  is_Some (event_types (event_wrapper s) !! "horizontal_line") →
  event_types (event_wrapper s) !! "red_light" = Some false →
  event_types (event_wrapper s) !! "stop_sign" = Some true →
  let r := cycles EVLFControl_execute ws s in
  outcome r = Returns tt
  ∧ commands (trace r) = replicate (length ws) (lit 0, lit 0.0)
  ∧ sleeps (trace r) = replicate (length ws) (lit 3)
  ∧ ((ReadImage : effect) ∉ trace r)
  ∧ event_wrapper (final r) = event_wrapper s.
Proof.
  intros Hev [hl Hhl] Hrl Hss. revert s Hev Hhl Hrl Hss.
  induction ws as [|w ws IH]; intros s Hev Hhl Hrl Hss r; subst r.
  - unfold outcome, final, trace; cbn. repeat split; try done. apply not_elem_of_nil.
  - cbn [cycles].
    rewrite (execute_stopped w s _ _ _ (handle_events_stop_sign w s hl Hev Hhl Hrl Hss)).
    match goal with |- context [cycles _ ws ?s1] => specialize (IH s1 Hev Hhl Hrl Hss) end.
    cbn zeta in IH. destruct IH as (Ho & Hc & Hs & Hnr & Hw).
    destruct (cycles EVLFControl_execute ws _) as [[r2 s2] t2].
    unfold outcome, final, trace in *; cbn [fst snd] in *.
    rewrite commands_app, sleeps_app, <- app_assoc, Hc, Hs.
    repeat split; try done.
    intros Hin. rewrite !elem_of_app, !elem_of_cons, elem_of_nil in Hin.
    intuition discriminate.
Qed.

(** X9.  The same for a red light, for a policy whose [steering] does not
    change when its [start] attribute is assigned: every consecutive cycle
    halts at the steering the policy had when the light was first seen, and
    sleeps 0.1. *)
Theorem red_light_holds_the_car
    (ws : list (World F Image)) (s : EVLFControl) :
  (∀ t p, steering (set_policy_start t p) = steering p) →
  event (event_wrapper s) = true →
  is_Some (event_types (event_wrapper s) !! "horizontal_line") →
  event_types (event_wrapper s) !! "red_light" = Some true →
  let r := cycles EVLFControl_execute ws s in
  outcome r = Returns tt
  ∧ commands (trace r) = replicate (length ws) (lit 0, steering (policy (car s)))
  ∧ sleeps (trace r) = replicate (length ws) (lit 0.1)
  ∧ ((ReadImage : effect) ∉ trace r)
  ∧ event_wrapper (final r) = event_wrapper s.
Proof.
  intros Hlaw Hev [hl Hhl] Hrl. revert s Hev Hhl Hrl.
  induction ws as [|w ws IH]; intros s Hev Hhl Hrl r; subst r.
  - unfold outcome, final, trace; cbn. repeat split; try done. apply not_elem_of_nil.
  - cbn [cycles].
    rewrite (execute_stopped w s _ _ _ (handle_events_red_light w s hl Hev Hhl Hrl)).
    match goal with |- context [cycles _ ws ?s1] => specialize (IH s1 Hev Hhl Hrl) end.
    cbn zeta in IH. destruct IH as (Ho & Hc & Hs & Hnr & Hw).
    destruct (cycles EVLFControl_execute ws _) as [[r2 s2] t2].
    unfold outcome, final, trace in *; cbn [fst snd] in *.
    rewrite commands_app, sleeps_app, <- app_assoc, Hs.
    cbn [policy car set_car set_policy set_halt_steering set_reduce_factor
         halt_steering] in *.
    rewrite Hlaw in Hc. rewrite Hc.
    repeat split; try done.
    intros Hin. rewrite !elem_of_app, !elem_of_cons, elem_of_nil in Hin.
    intuition discriminate.
Qed.

(** ** More on the observer *)

Lemma observer_no_frame (w : World F Image) (o : EVLFObserver) :
  rgbd w = Returns None →
  EVLFObserver_execute w o = (Returns tt, o, [ReadRgbImage]).
Proof. intros Hr. step_observer. by rewrite Hr. Qed.

Lemma observer_camera_raises (w : World F Image) (o : EVLFObserver) e :
  rgbd w = Raises e →
  EVLFObserver_execute w o = (Raises e, o, [ReadRgbImage; Print e]).
Proof. intros Hr. step_observer. by rewrite Hr. Qed.

Lemma observer_pipeline_raises (w : World F Image) (o : EVLFObserver) image d' e :
  rgbd w = Returns (Some image) →
  pipeline_call image (pipeline o) = (d', Some e) →
  EVLFObserver_execute w o =
    (Raises e, set_pipeline d' o, [ReadRgbImage; RunPipeline image; Print e]).
Proof. intros Hr Hp. step_observer. rewrite Hr. cbn. by rewrite Hp. Qed.

Lemma observer_publishes (w : World F Image) (o : EVLFObserver) image d' :
  rgbd w = Returns (Some image) →
  pipeline_call image (pipeline o) = (d', None) →
  EVLFObserver_execute w o =
    (Returns tt,
     set_events (published (detection_flags d') (events o)) (set_pipeline d' o),
     [ReadRgbImage; RunPipeline image] ++ publish_calls (detection_flags d')).
Proof.
  intros Hr Hp. step_observer. rewrite Hr. cbn. rewrite Hp. cbn.
  by rewrite publish_run.
Qed.

(** X10.  An observer cycle without a detection publishes nothing.  When the
    camera returns [None], or when the cycle ends in an exception (from the
    camera or from the pipeline), [events.set] and [events.clear] are not
    called and the shared flags stay as they were; an exception is printed as
    the last thing before it is raised again. *)
Theorem observer_without_detection_keeps_flags (w : World F Image) (o : EVLFObserver) :
  rgbd w = Returns None ∨ outcome (EVLFObserver_execute w o) ≠ Returns tt →
  let r := EVLFObserver_execute w o in
  events (final r) = events o
  ∧ (∀ k, (EventsSet k ∉ trace r) ∧ (EventsClear k ∉ trace r))
  ∧ (∀ image, rgbd w ≠ Returns (Some image) → RunPipeline image ∉ trace r)
  ∧ (∀ e, outcome r = Raises e → last (trace r) = Some (Print e)).
Proof.
  intros Hcase r. subst r.
  assert (∀ (x : effect) (t : list effect),
            (x ∈ t → False) → x ∉ t) as Habsent by done.
  destruct (rgbd w) as [[image|]|e] eqn:Hr.
  - destruct (pipeline_call image (pipeline o)) as [d' [e|]] eqn:Hp.
    + rewrite (observer_pipeline_raises w o image d' e Hr Hp).
      unfold outcome, final, trace; cbn [fst snd events set_pipeline].
      split; [done|]. split; [|split].
      * intros k; split; apply Habsent;
          rewrite !elem_of_cons, elem_of_nil; intuition discriminate.
      * intros image' Hne. apply Habsent.
        rewrite !elem_of_cons, elem_of_nil. intuition congruence.
      * by intros e' [= <-].
    + rewrite (observer_publishes w o image d' Hr Hp) in Hcase.
      by destruct Hcase.
  - rewrite (observer_no_frame w o Hr).
    unfold outcome, final, trace; cbn [fst snd].
    split; [done|]. split; [|split].
    + intros k; split; apply Habsent;
        rewrite !elem_of_cons, elem_of_nil; intuition discriminate.
    + intros image' _. apply Habsent.
      rewrite !elem_of_cons, elem_of_nil. intuition discriminate.
    + done.
  - rewrite (observer_camera_raises w o e Hr).
    unfold outcome, final, trace; cbn [fst snd].
    split; [done|]. split; [|split].
    + intros k; split; apply Habsent;
        rewrite !elem_of_cons, elem_of_nil; intuition discriminate.
    + intros image' _. apply Habsent.
      rewrite !elem_of_cons, elem_of_nil. intuition discriminate.
    + by intros e' [= <-].
Qed.

(** The flags after the loop over a dictionary: its entries laid over what
    was there. *)
Lemma published_event_types (items : list (string * bool)) (w : EventWrapper) :
  NoDup items.*1 →
  event_types (published items w) = list_to_map items ∪ event_types w.
Proof.
  intros Hnd. apply map_eq. intros k. rewrite lookup_union.
  destruct (list_to_map items !! k) as [v|] eqn:Hk.
  - apply elem_of_list_to_map in Hk; [|done].
    rewrite (published_item items w k v Hnd Hk).
    by destruct (event_types w !! k).
  - apply not_elem_of_list_to_map in Hk.
    rewrite (published_other items w k Hk).
    by destruct (event_types w !! k).
Qed.

(** X11.  Two observer cycles in a row, each with a detection: the shared
    flags end as the second detection laid over the first laid over what
    was there.  A key the second detection reports has its second value; a
    key only the first one reported keeps that value, nobody clears it. *)
Theorem observer_last_detection_wins
    (w1 w2 : World F Image) (o : EVLFObserver) (image1 image2 : Image) (d1 d2 : D) :
  rgbd w1 = Returns (Some image1) →
  pipeline_call image1 (pipeline o) = (d1, None) →
  rgbd w2 = Returns (Some image2) →
  pipeline_call image2 d1 = (d2, None) →
  NoDup (detection_flags d1).*1 →
  NoDup (detection_flags d2).*1 →
  let r := cycles EVLFObserver_execute [w1; w2] o in
  outcome r = Returns tt
  ∧ pipeline (final r) = d2
  ∧ event_types (events (final r)) =
      list_to_map (detection_flags d2)
      ∪ (list_to_map (detection_flags d1) ∪ event_types (events o)).
Proof.
  intros Hr1 Hp1 Hr2 Hp2 Hnd1 Hnd2 r. subst r.
  cbn [cycles].
  rewrite (observer_publishes w1 o image1 d1 Hr1 Hp1).
  rewrite (observer_publishes w2
             (set_events (published (detection_flags d1) (events o)) (set_pipeline d1 o))
             image2 d2 Hr2 Hp2).
  unfold outcome, final, trace; cbn [fst snd events pipeline set_events set_pipeline].
  repeat split; try done.
  by rewrite !published_event_types.
Qed.

(** When [handle_events] returns, the reduce factor is one of the two
    literals. *)
Lemma handle_events_returns_factor (w : World F Image) (s s0 : EVLFControl) t0 :
  handle_events w s = (Returns tt, s0, t0) →
  reduce_factor s0 = lit 0.67 ∨ reduce_factor s0 = lit 1.0.
Proof.
  step. destruct (event (event_wrapper s)).
  - destruct (event_types (event_wrapper s) !! "horizontal_line") as [[]|]; cbn;
      [| |done];
      (destruct (event_types (event_wrapper s) !! "red_light") as [[]|]; cbn;
         [done| |done]);
      (destruct (event_types (event_wrapper s) !! "stop_sign") as [[]|]; cbn;
         [done| |done]);
      intros [= <- _]; auto.
  - intros [= <- _]; auto.
Qed.

(** ** The cosine outside its domain *)

(** X17.  When camera and policy have returned and [math.cos] is not defined
    at [2.0 * steering] (an infinite argument), [EVLFControl.execute] writes
    no command and does not sleep: the [ValueError] is printed and raised
    again, with the policy already updated and [self.start] already set to
    the clock. *)
Theorem cosine_error_ends_control_cycle
    (w : World F Image) (s : EVLFControl) (image : Image) (p' : P) :
  outcome (handle_events w s) = Returns tt →
  front_csi w = Returns image →
  execute_policy image (policy (car s)) = (p', None) →
  fcos (fmul (lit 2.0) (steering p')) = None →
  let r := EVLFControl_execute w s in
  outcome r = Raises (ValueError "math domain error")
  ∧ trace r = trace (handle_events w s)
              ++ [ReadImage; ExecutePolicy image; Print (ValueError "math domain error")]
  ∧ commands (trace r) = []
  ∧ sleeps (trace r) = []
  ∧ policy (car (final r)) = p'
  ∧ start (car (final r)) = time_time w.
Proof.
  intros Hout Hc Hp Hcos r. subst r.
  destruct (handle_events_frame w s) as (Hcar & _ & Hfr & _).
  destruct (handle_events w s) as [[o s0] t0] eqn:Hh.
  unfold outcome, final, trace in *; cbn [fst snd] in *. subst o.
  rewrite <- Hcar in Hp.
  rewrite (execute_body_raises w s _ _ _
             (body_cos_raises w s s0 image p' t0 Hh Hc Hp Hcos)).
  step. rewrite <- app_assoc, commands_app, sleeps_app.
  destruct (flag_reads_silent t0 Hfr) as [-> ->]. done.
Qed.

(** X18.  In the same situation at [2.05 * steering], [VLFCar.execute]
    lets the [ValueError] out unprinted, with no command written, the policy
    updated and [self.start] untouched. *)
Theorem cosine_error_leaves_VLFCar_execute
    (w : World F Image) (c : VLFCar) (image : Image) (p' : P) :
  front_csi w = Returns image →
  execute_policy image (policy c) = (p', None) →
  fcos (fmul (lit 2.05) (steering p')) = None →
  let r := VLFCar_execute w c in
  outcome r = Raises (ValueError "math domain error")
  ∧ trace r = [ReadImage; ExecutePolicy image]
  ∧ commands (trace r) = []
  ∧ policy (final r) = p'
  ∧ start (final r) = start c.
Proof.
  intros Hc Hp Hcos r. subst r.
  by rewrite (VLFCar_execute_cos_raises w c image p' Hc Hp Hcos).
Qed.

End Classes.

(** ** A bench: concrete collaborators over exact arithmetic

    A frame is the lateral offset of the line, or nothing when no contour
    is visible; the bench policy steers by that offset and keeps its
    throttle; the bench pipeline reports a stop sign on every frame. *)

Module Bench.

Definition frame : Type := option Q.

Record line_policy : Type := {
  lp_steering : R;
  lp_throttle : R;
  lp_start : R;
}.

#[export] Instance line_policy_ops : VisualLineFollowing R frame line_policy := {|
  steering := lp_steering;
  throttle := lp_throttle;
  execute_policy image p :=
    match image with
    | Some offset =>
        ({| lp_steering := Q2R offset; lp_throttle := lp_throttle p;
            lp_start := lp_start p |}, None)
    | None => (p, Some NoContourException)
    end;
  set_policy_start t p :=
    {| lp_steering := lp_steering p; lp_throttle := lp_throttle p; lp_start := t |};
|}.

#[export] Instance sign_pipeline : DecisionMaker R frame (list (string * bool)) := {|
  pipeline_call image d :=
    match image with
    | Some _ =>
        ([("horizontal_line", false); ("red_light", false); ("stop_sign", true)], None)
    | None => (d, Some (OtherException "ValueError"))
    end;
  detection_flags d := d;
|}.

Definition flags (horizontal_line red_light stop_sign : bool) : gmap string bool :=
  <["horizontal_line" := horizontal_line]>
    (<["red_light" := red_light]> (<["stop_sign" := stop_sign]> ∅)).

Definition wrapper (is_set horizontal_line red_light stop_sign : bool) : EventWrapper :=
  {| event := is_set; event_types := flags horizontal_line red_light stop_sign |}.

(** A car steering 0.25 at throttle 0.1. *)
Definition a_policy : line_policy :=
  {| lp_steering := Q2R 0.25; lp_throttle := Q2R 0.1; lp_start := Q2R 0 |}.

Definition control (w : EventWrapper) : @EVLFControl R line_policy :=
  EVLFControl_init w (VLFCar_init a_policy (Q2R 0)).

Definition at_red_light := control (wrapper true false true false).
Definition at_stop_sign := control (wrapper true false false true).
Definition at_red_light_and_stop_sign := control (wrapper true true true true).
Definition at_horizontal_line := control (wrapper true true false false).
Definition no_event := control (wrapper false false false false).

(** The camera shows the line at offset 0.5. *)
Definition world : World R frame :=
  {| front_csi := Returns (Some 0.5%Q);
     rgbd := Returns (Some (Some 0.5%Q));
     time_time := Q2R 12 |}.

(** The camera has no image. *)
Definition dark_world : World R frame :=
  {| front_csi := Raises NoImageException;
     rgbd := Returns None;
     time_time := Q2R 12 |}.

Definition observer : @EVLFObserver (list (string * bool)) :=
  {| events := wrapper false true true false; pipeline := [] |}.

End Bench.

(** ** The theorems at work on the bench *)

Import Bench.

(** A red light while steering 0.25: halt at 0.25, sleep 0.1. *)
Lemma red_light_halts_at_current_steering_bench :
  event (event_wrapper at_red_light) = true
  ∧ is_Some (event_types (event_wrapper at_red_light) !! "horizontal_line")
  ∧ event_types (event_wrapper at_red_light) !! "red_light" = Some true
  ∧ commands (trace (EVLFControl_execute Bench.world at_red_light)) = [(Q2R 0, Q2R 0.25)]
  ∧ sleeps (trace (EVLFControl_execute Bench.world at_red_light)) = [Q2R 0.1].
Proof.
  assert (event (event_wrapper at_red_light) = true) as H1 by reflexivity.
  assert (is_Some (event_types (event_wrapper at_red_light) !! "horizontal_line")) as H2
    by (exists false; reflexivity).
  assert (event_types (event_wrapper at_red_light) !! "red_light" = Some true) as H3
    by reflexivity.
  destruct (red_light_halts_at_current_steering Bench.world at_red_light H1 H2 H3)
    as (_ & _ & _ & _ & Hc & Hs & _).
  exact (conj H1 (conj H2 (conj H3 (conj Hc Hs)))).
Defined.

(** A stop sign: halt with the wheels straight, sleep 3. *)
Lemma stop_sign_halts_three_seconds_bench :
  event (event_wrapper at_stop_sign) = true
  ∧ is_Some (event_types (event_wrapper at_stop_sign) !! "horizontal_line")
  ∧ event_types (event_wrapper at_stop_sign) !! "red_light" = Some false
  ∧ event_types (event_wrapper at_stop_sign) !! "stop_sign" = Some true
  ∧ commands (trace (EVLFControl_execute Bench.world at_stop_sign)) = [(Q2R 0, Q2R 0.0)]
  ∧ sleeps (trace (EVLFControl_execute Bench.world at_stop_sign)) = [Q2R 3].
Proof.
  assert (event (event_wrapper at_stop_sign) = true) as H1 by reflexivity.
  assert (is_Some (event_types (event_wrapper at_stop_sign) !! "horizontal_line")) as H2
    by (exists false; reflexivity).
  assert (event_types (event_wrapper at_stop_sign) !! "red_light" = Some false) as H3
    by reflexivity.
  assert (event_types (event_wrapper at_stop_sign) !! "stop_sign" = Some true) as H4
    by reflexivity.
  destruct (stop_sign_halts_three_seconds Bench.world at_stop_sign H1 H2 H3 H4)
    as (_ & _ & _ & _ & Hc & Hs).
  exact (conj H1 (conj H2 (conj H3 (conj H4 (conj Hc Hs))))).
Defined.

(** Red light and stop sign together: the short stop. *)
Lemma red_light_wins_over_stop_sign_bench :
  event (event_wrapper at_red_light_and_stop_sign) = true
  ∧ is_Some (event_types (event_wrapper at_red_light_and_stop_sign) !! "horizontal_line")
  ∧ event_types (event_wrapper at_red_light_and_stop_sign) !! "red_light" = Some true
  ∧ event_types (event_wrapper at_red_light_and_stop_sign) !! "stop_sign" = Some true
  ∧ outcome (handle_events Bench.world at_red_light_and_stop_sign) = Raises (StopException (Q2R 0.1))
  ∧ sleeps (trace (EVLFControl_execute Bench.world at_red_light_and_stop_sign)) = [Q2R 0.1].
Proof.
  assert (event (event_wrapper at_red_light_and_stop_sign) = true) as H1 by reflexivity.
  assert (is_Some (event_types (event_wrapper at_red_light_and_stop_sign) !! "horizontal_line")) as H2
    by (exists true; reflexivity).
  assert (event_types (event_wrapper at_red_light_and_stop_sign) !! "red_light" = Some true) as H3
    by reflexivity.
  assert (event_types (event_wrapper at_red_light_and_stop_sign) !! "stop_sign" = Some true) as H4
    by reflexivity.
  destruct (red_light_wins_over_stop_sign Bench.world at_red_light_and_stop_sign H1 H2 H3 H4)
    as (Ho & _ & _ & Hs & _).
  exact (conj H1 (conj H2 (conj H3 (conj H4 (conj Ho Hs))))).
Defined.

(** A horizontal line ahead and the line at offset 0.5: the whole trace. *)
Lemma normal_cycle_bench :
  outcome (handle_events Bench.world at_horizontal_line) = Returns tt
  ∧ front_csi Bench.world = Returns (Some 0.5%Q)
  ∧ (execute_policy (Some 0.5%Q) (policy (car at_horizontal_line))).2 = None
  ∧ fcos (fmul (lit 2.0)
            (steering (execute_policy (Some 0.5%Q) (policy (car at_horizontal_line))).1))
    = Some (cos (Q2R 2.0 * Q2R 0.5))
  ∧ trace (EVLFControl_execute Bench.world at_horizontal_line) =
      [IsSet; GetFlag "horizontal_line"; GetFlag "red_light"; GetFlag "stop_sign";
       ReadImage; ExecutePolicy (Some 0.5%Q);
       ReadWriteStd (Q2R 0.1 * Rabs (cos (Q2R 2.0 * Q2R 0.5)) * Q2R 0.67)%R (Q2R 0.5)
                    [0; 0; 0; 0; 0; 0; 0; 0]%Z].
Proof.
  assert (outcome (handle_events Bench.world at_horizontal_line) = Returns tt) as H1 by reflexivity.
  assert (front_csi Bench.world = Returns (Some 0.5%Q)) as H2 by reflexivity.
  assert ((execute_policy (Some 0.5%Q) (policy (car at_horizontal_line))).2 = None) as H3 by reflexivity.
  assert (fcos (fmul (lit 2.0)
                  (steering (execute_policy (Some 0.5%Q)
                               (policy (car at_horizontal_line))).1))
          = Some (cos (Q2R 2.0 * Q2R 0.5))) as H4 by reflexivity.
  destruct (normal_cycle_reads_flags_image_policy_then_writes
              Bench.world at_horizontal_line (Some 0.5%Q) _ H1 H2 H3 H4) as (_ & Ht & _).
  exact (conj H1 (conj H2 (conj H3 (conj H4 Ht)))).
Defined.

(** A horizontal line ahead: the factor is 0.67 at the end of the cycle. *)
Lemma reduce_factor_bench :
  (event (event_wrapper at_horizontal_line) = true →
   is_Some (event_types (event_wrapper at_horizontal_line) !! "horizontal_line"))
  ∧ reduce_factor (final (EVLFControl_execute Bench.world at_horizontal_line)) = Q2R 0.67
  ∧ commands (trace (EVLFControl_execute Bench.world at_horizontal_line)) =
      [((Q2R 0.1 * Rabs (cos (Q2R 2.0 * Q2R 0.5)) * Q2R 0.67)%R, Q2R 0.5)].
Proof.
  assert (event (event_wrapper at_horizontal_line) = true →
          is_Some (event_types (event_wrapper at_horizontal_line) !! "horizontal_line")) as H1
    by (intros _; exists true; reflexivity).
  destruct (reduce_factor_follows_horizontal_line Bench.world at_horizontal_line H1)
    as (_ & Hf & Hcmd & _).
  destruct (Hcmd (Some 0.5%Q)
              {| Bench.lp_steering := Q2R 0.5; Bench.lp_throttle := Q2R 0.1;
                 Bench.lp_start := Q2R 0 |}
              (cos (Q2R 2.0 * Q2R 0.5)) eq_refl eq_refl eq_refl eq_refl) as (_ & Hc).
  exact (conj H1 (conj Hf Hc)).
Defined.

(** No image: the cycle ends after the camera read. *)
Lemma no_image_is_skipped_bench :
  EVLFControl_execute_body Bench.dark_world no_event =
    (Raises NoImageException, set_reduce_factor (Q2R 1.0) no_event, [IsSet; ReadImage])
  ∧ EVLFControl_execute Bench.dark_world no_event =
    (Returns tt, set_reduce_factor (Q2R 1.0) no_event, [IsSet; ReadImage]).
Proof.
  assert (EVLFControl_execute_body Bench.dark_world no_event =
            (Raises NoImageException, set_reduce_factor (Q2R 1.0) no_event,
             [IsSet; ReadImage])) as H1 by reflexivity.
  destruct (execute_dispatches_on_three_exceptions Bench.dark_world no_event _ _ _ H1)
    as (_ & _ & Hr & _).
  exact (conj H1 Hr).
Defined.

(** The observer overwrites a red light that is no longer detected. *)
Lemma observer_republishes_bench :
  rgbd Bench.world = Returns (Some (Some 0.5%Q))
  ∧ (pipeline_call (Some 0.5%Q) (pipeline Bench.observer)).2 = None
  ∧ NoDup (detection_flags (pipeline_call (Some 0.5%Q) (pipeline Bench.observer)).1).*1
  ∧ event_types (events (final (EVLFObserver_execute Bench.world Bench.observer)))
      !! "red_light" = Some false.
Proof.
  assert (rgbd Bench.world = Returns (Some (Some 0.5%Q))) as H1 by reflexivity.
  assert ((pipeline_call (Some 0.5%Q) (pipeline Bench.observer)).2 = None) as H2
    by reflexivity.
  assert (NoDup (detection_flags
                   (pipeline_call (Some 0.5%Q) (pipeline Bench.observer)).1).*1) as H3
    by (apply (bool_decide_unpack _); vm_compute; reflexivity).
  destruct (observer_republishes_detection_flags Bench.world Bench.observer
              (Some 0.5%Q) H1 H2 H3) as (_ & _ & _ & Hin & _).
  refine (conj H1 (conj H2 (conj H3 (Hin "red_light" false _)))).
  cbn. rewrite !elem_of_cons. auto.
Defined.

(** Without events both cars steer 0.5. *)
Lemma event_free_cycle_bench :
  event (event_wrapper no_event) = false
  ∧ front_csi Bench.world = Returns (Some 0.5%Q)
  ∧ (execute_policy (Some 0.5%Q) (policy (car no_event))).2 = None
  ∧ fcos (fmul (lit 2.0)
            (steering (execute_policy (Some 0.5%Q) (policy (car no_event))).1))
    = Some (cos (Q2R 2.0 * Q2R 0.5))
  ∧ fcos (fmul (lit 2.05)
            (steering (execute_policy (Some 0.5%Q) (policy (car no_event))).1))
    = Some (cos (Q2R 2.05 * Q2R 0.5))
  ∧ (commands (trace (EVLFControl_execute Bench.world no_event))).*2 = [Q2R 0.5]
  ∧ (commands (trace (VLFCar_execute Bench.world (car no_event)))).*2 = [Q2R 0.5].
Proof.
  assert (event (event_wrapper no_event) = false) as H1 by reflexivity.
  assert (front_csi Bench.world = Returns (Some 0.5%Q)) as H2 by reflexivity.
  assert ((execute_policy (Some 0.5%Q) (policy (car no_event))).2 = None) as H3 by reflexivity.
  assert (fcos (fmul (lit 2.0)
                  (steering (execute_policy (Some 0.5%Q) (policy (car no_event))).1))
          = Some (cos (Q2R 2.0 * Q2R 0.5))) as H4 by reflexivity.
  assert (fcos (fmul (lit 2.05)
                  (steering (execute_policy (Some 0.5%Q) (policy (car no_event))).1))
          = Some (cos (Q2R 2.05 * Q2R 0.5))) as H5 by reflexivity.
  destruct (event_free_cycle_same_steering_own_throttle
              Bench.world no_event (Some 0.5%Q) _ _ H1 H2 H3 H4 H5) as (He & Hv & _).
  rewrite He, Hv.
  exact (conj H1 (conj H2 (conj H3 (conj H4 (conj H5 (conj eq_refl eq_refl)))))).
Defined.

(** ** Where the two throttles part *)

(** Steering 0.5: the cosine is taken at 1 by [EVLFControl] and at 1.025 by
    [VLFCar], both in the first quadrant, where it is positive and strictly
    decreasing. *)
Lemma cos_at_1_above_cos_at_1025 : (0 < cos (41 / 40) < cos 1)%R.
Proof.
  pose proof PI2_3_2 as Hpi.
  split.
  - apply cos_gt_0; lra.
  - apply cos_decreasing_1; lra.
Qed.

(** C8, the claim as stated fails: with the event not set, on the same image
    (line offset 0.5) and the same policy state (throttle 0.1), the command
    of [EVLFControl.execute] is not the command of [VLFCar.execute]. *)
Lemma event_free_cycle_commands_differ :
  event (event_wrapper no_event) = false
  ∧ commands (trace (EVLFControl_execute Bench.world no_event))
    ≠ commands (trace (VLFCar_execute Bench.world (car no_event))).
Proof.
  split; [reflexivity|].
  change (commands (trace (EVLFControl_execute Bench.world no_event)))
    with [((Q2R 0.1 * Rabs (cos (Q2R 2.0 * Q2R 0.5)) * Q2R 1.0)%R, Q2R 0.5)].
  change (commands (trace (VLFCar_execute Bench.world (car no_event))))
    with [((Q2R 0.1 * Rabs (cos (Q2R 2.05 * Q2R 0.5)))%R, Q2R 0.5)].
  intros [= Heq].
  replace (Q2R 2.0 * Q2R 0.5)%R with 1%R in Heq by (unfold Q2R; cbn; lra).
  replace (Q2R 2.05 * Q2R 0.5)%R with (41 / 40)%R in Heq by (unfold Q2R; cbn; lra).
  destruct cos_at_1_above_cos_at_1025 as [Hpos Hlt].
  rewrite !Rabs_pos_eq in Heq by lra.
  unfold Q2R in Heq; cbn in Heq. lra.
Qed.

(** ** The throttle in exact arithmetic *)

Section Exact.
Context {Image P : Type} `{!VisualLineFollowing R Image P}.

Lemma scaled_throttle_bound (pt c cos_c rf : R) :
  fcos c = Some cos_c →
  (rf = Q2R 0.67 ∨ rf = Q2R 1.0 →
   Rabs (pt * Rabs cos_c * rf) <= Rabs pt)%R.
Proof.
  intros [= <-] Hrf.
  assert (0 <= rf <= 1)%R as Hf
    by (destruct Hrf as [-> | ->]; unfold Q2R; cbn; lra).
  pose proof (COS_bound c) as Hcos.
  assert (0 <= Rabs (cos c) <= 1)%R as Hc
    by (split; [apply Rabs_pos | apply Rabs_le; lra]).
  pose proof (Rabs_pos pt) as Hp.
  rewrite !Rabs_mult, Rabs_Rabsolu, (Rabs_pos_eq rf) by lra.
  nra.
Qed.

(** X12.  Over the reals, no command of [EVLFControl.execute] asks for more
    than the policy's throttle: the magnitude of a commanded throttle is at
    most the magnitude of [policy.throttle] (the cosine term and the reduce
    factor only ever shrink it, and a halt commands 0). *)
Theorem EVLFControl_throttle_within_policy_throttle
    (w : World R Image) (s : EVLFControl) (th st : R) :
  (th, st) ∈ commands (trace (EVLFControl_execute w s)) →
  (Rabs th <= Rabs (throttle (policy (car (final (EVLFControl_execute w s))))))%R.
Proof.
  destruct (EVLFControl_execute_body w s) as [[[[]|e] s1] t1] eqn:Hb.
  - rewrite (execute_body_returns w s s1 t1 Hb).
    destruct (body_returns_inv w s s1 t1 Hb) as ((cos_st & Hcos & Hc) & _ & Hrf).
    unfold final at 1, trace; cbn [fst snd]. rewrite Hc.
    intros [= -> ->]%list_elem_of_singleton.
    apply (scaled_throttle_bound _ _ _ _ Hcos). rewrite Hrf.
    destruct (handle_events w s) as [[[[]|e0] s0] t0] eqn:Hh.
    + apply (handle_events_returns_factor w s s0 t0 Hh).
    + by rewrite (body_events_raise w s s0 e0 t0 Hh) in Hb.
  - rewrite (execute_body_raises w s s1 e t1 Hb).
    destruct (body_raises_inv w s s1 e t1 Hb) as (Hc & _).
    destruct e; unfold EVLFControl_execute_handler, super, zoom, halt_car,
      read_write_std, bind, ret, raise, gets, modify, emit, ask;
      unfold final, trace; cbn [fst snd]; rewrite ?app_nil_r, ?commands_app, Hc; cbn;
      rewrite ?elem_of_nil; try done.
    intros [= -> ->]%list_elem_of_singleton.
    replace (Q2R 0) with 0%R by (unfold Q2R; cbn; lra).
    rewrite Rabs_R0. apply Rabs_pos.
Qed.

(** X13.  The same for [VLFCar.execute]. *)
Theorem VLFCar_throttle_within_policy_throttle
    (w : World R Image) (c : VLFCar) (th st : R) :
  (th, st) ∈ commands (trace (VLFCar_execute w c)) →
  (Rabs th <= Rabs (throttle (policy (final (VLFCar_execute w c)))))%R.
Proof.
  destruct (front_csi w) as [image|e] eqn:Hc.
  - destruct (execute_policy image (policy c)) as [p' [e|]] eqn:Hp.
    + rewrite (VLFCar_execute_policy_raises w c image p' e Hc Hp).
      unfold trace; cbn. by rewrite elem_of_nil.
    + assert (fcos (fmul (lit 2.05) (steering p'))
              = Some (cos (Q2R 2.05 * steering p'))) as Hdef by reflexivity.
      rewrite (VLFCar_execute_returns w c image p' _ Hc Hp Hdef).
      unfold final, trace; cbn.
      intros [= -> ->]%list_elem_of_singleton.
      pose proof (COS_bound (Q2R 2.05 * steering p')) as Hcos.
      pose proof (Rabs_pos (throttle p')) as Hpos.
      assert (0 <= Rabs (cos (Q2R 2.05 * steering p')) <= 1)%R as Habs
        by (split; [apply Rabs_pos | apply Rabs_le; lra]).
      rewrite Rabs_mult, Rabs_Rabsolu. nra.
  - rewrite (VLFCar_execute_camera_raises w c e Hc).
    unfold trace; cbn. by rewrite elem_of_nil.
Qed.

End Exact.

(** ** More runs on the bench *)

(** The camera times out. *)
Definition stormy_world : World R Bench.frame :=
  {| front_csi := Raises (OtherException "TimeoutError");
     rgbd := Raises (OtherException "TimeoutError");
     time_time := Q2R 12 |}.

(** The event is set but the dictionary is empty. *)
Definition bare_control : @EVLFControl R Bench.line_policy :=
  Bench.control {| event := true; event_types := ∅ |}.

(** No image: [VLFCar.execute] returns without a command. *)
Lemma VLFCar_execute_skips_bench :
  (front_csi Bench.dark_world = Raises NoImageException
   ∨ ∃ image, front_csi Bench.dark_world = Returns image
              ∧ (execute_policy image (policy (car Bench.no_event))).2
                = Some NoImageException)
  ∧ outcome (VLFCar_execute Bench.dark_world (car Bench.no_event)) = Returns tt
  ∧ commands (trace (VLFCar_execute Bench.dark_world (car Bench.no_event))) = [].
Proof.
  assert (front_csi Bench.dark_world = Raises NoImageException
          ∨ ∃ image, front_csi Bench.dark_world = Returns image
                     ∧ (execute_policy image (policy (car Bench.no_event))).2
                       = Some NoImageException) as H1
    by (left; reflexivity).
  destruct (VLFCar_execute_skips_or_propagates
              Bench.dark_world (car Bench.no_event) NoImageException H1)
    as (Hc & _ & _ & Ho).
  exact (conj H1 (conj Ho Hc)).
Defined.

(** A camera time-out leaves [EVLFControl.execute] printed. *)
Lemma EVLFControl_execute_raises_bench :
  outcome (EVLFControl_execute stormy_world Bench.no_event)
    = Raises (OtherException "TimeoutError")
  ∧ last (trace (EVLFControl_execute stormy_world Bench.no_event))
    = Some (Print (OtherException "TimeoutError")).
Proof.
  assert (outcome (EVLFControl_execute stormy_world Bench.no_event)
          = Raises (OtherException "TimeoutError")) as H1 by reflexivity.
  destruct (EVLFControl_execute_raises_after_print
              stormy_world Bench.no_event _ H1) as (_ & Hl & _).
  exact (conj H1 Hl).
Defined.

(** An empty dictionary: the first key subscripted is the one reported. *)
Lemma missing_flag_bench :
  event (event_wrapper bare_control) = true
  ∧ (event_types (event_wrapper bare_control) !! "horizontal_line" = None
     ∨ event_types (event_wrapper bare_control) !! "red_light" = None
     ∨ (event_types (event_wrapper bare_control) !! "red_light" = Some false
        ∧ event_types (event_wrapper bare_control) !! "stop_sign" = None))
  ∧ outcome (EVLFControl_execute Bench.world bare_control)
    = Raises (KeyError "horizontal_line")
  ∧ last (trace (EVLFControl_execute Bench.world bare_control))
    = Some (Print (KeyError "horizontal_line")).
Proof.
  assert (event (event_wrapper bare_control) = true) as H1 by reflexivity.
  assert (event_types (event_wrapper bare_control) !! "horizontal_line" = None
          ∨ event_types (event_wrapper bare_control) !! "red_light" = None
          ∨ (event_types (event_wrapper bare_control) !! "red_light" = Some false
             ∧ event_types (event_wrapper bare_control) !! "stop_sign" = None)) as H2
    by (left; reflexivity).
  destruct (missing_flag_raises_KeyError Bench.world bare_control H1 H2)
    as (_ & Ho & Hl & _).
  exact (conj H1 (conj H2 (conj Ho Hl))).
Defined.

(** Event not set: a dictionary full of true flags changes nothing. *)
Lemma unset_event_hides_flags_bench :
  event (event_wrapper Bench.no_event) = false
  ∧ trace (EVLFControl_execute Bench.world
             (with_event_types (Bench.flags true true true) Bench.no_event))
    = trace (EVLFControl_execute Bench.world Bench.no_event).
Proof.
  assert (event (event_wrapper Bench.no_event) = false) as H1 by reflexivity.
  destruct (unset_event_hides_flags Bench.world Bench.no_event
              (Bench.flags true true true) H1) as (_ & Ht & _).
  exact (conj H1 Ht).
Defined.

(** Three cycles at a stop sign, whatever the camera shows. *)
Lemma stop_sign_holds_the_car_bench :
  event (event_wrapper Bench.at_stop_sign) = true
  ∧ is_Some (event_types (event_wrapper Bench.at_stop_sign) !! "horizontal_line")
  ∧ event_types (event_wrapper Bench.at_stop_sign) !! "red_light" = Some false
  ∧ event_types (event_wrapper Bench.at_stop_sign) !! "stop_sign" = Some true
  ∧ sleeps (trace (cycles EVLFControl_execute
                     [Bench.world; Bench.dark_world; stormy_world] Bench.at_stop_sign))
    = [Q2R 3; Q2R 3; Q2R 3].
Proof.
  assert (event (event_wrapper Bench.at_stop_sign) = true) as H1 by reflexivity.
  assert (is_Some (event_types (event_wrapper Bench.at_stop_sign) !! "horizontal_line"))
    as H2 by (exists false; reflexivity).
  assert (event_types (event_wrapper Bench.at_stop_sign) !! "red_light" = Some false)
    as H3 by reflexivity.
  assert (event_types (event_wrapper Bench.at_stop_sign) !! "stop_sign" = Some true)
    as H4 by reflexivity.
  destruct (stop_sign_holds_the_car [Bench.world; Bench.dark_world; stormy_world]
              Bench.at_stop_sign H1 H2 H3 H4) as (_ & _ & Hs & _).
  exact (conj H1 (conj H2 (conj H3 (conj H4 Hs)))).
Defined.

(** Two cycles at a red light: halted at 0.25 both times. *)
Lemma red_light_holds_the_car_bench :
  (∀ (t : R) (p : Bench.line_policy), steering (set_policy_start t p) = steering p)
  ∧ event (event_wrapper Bench.at_red_light) = true
  ∧ is_Some (event_types (event_wrapper Bench.at_red_light) !! "horizontal_line")
  ∧ event_types (event_wrapper Bench.at_red_light) !! "red_light" = Some true
  ∧ commands (trace (cycles EVLFControl_execute
                       [Bench.world; Bench.world] Bench.at_red_light))
    = [(Q2R 0, Q2R 0.25); (Q2R 0, Q2R 0.25)].
Proof.
  assert (∀ (t : R) (p : Bench.line_policy),
            steering (set_policy_start t p) = steering p) as H0
    by (intros t p; reflexivity).
  assert (event (event_wrapper Bench.at_red_light) = true) as H1 by reflexivity.
  assert (is_Some (event_types (event_wrapper Bench.at_red_light) !! "horizontal_line"))
    as H2 by (exists false; reflexivity).
  assert (event_types (event_wrapper Bench.at_red_light) !! "red_light" = Some true)
    as H3 by reflexivity.
  destruct (red_light_holds_the_car [Bench.world; Bench.world]
              Bench.at_red_light H0 H1 H2 H3) as (_ & Hc & _).
  exact (conj H0 (conj H1 (conj H2 (conj H3 Hc)))).
Defined.

(** No frame: the observer leaves the flags. *)
Lemma observer_without_detection_bench :
  (rgbd Bench.dark_world = Returns None
   ∨ outcome (EVLFObserver_execute Bench.dark_world Bench.observer) ≠ Returns tt)
  ∧ events (final (EVLFObserver_execute Bench.dark_world Bench.observer))
    = events Bench.observer.
Proof.
  assert (rgbd Bench.dark_world = Returns None
          ∨ outcome (EVLFObserver_execute Bench.dark_world Bench.observer) ≠ Returns tt)
    as H1 by (left; reflexivity).
  destruct (observer_without_detection_keeps_flags Bench.dark_world Bench.observer H1)
    as (He & _).
  exact (conj H1 He).
Defined.

(** Two frames with a stop sign: the flags after the second cycle. *)
Lemma observer_last_detection_bench :
  rgbd Bench.world = Returns (Some (Some 0.5%Q))
  ∧ pipeline_call (Some 0.5%Q) (pipeline Bench.observer)
    = ([("horizontal_line", false); ("red_light", false); ("stop_sign", true)], None)
  ∧ NoDup [("horizontal_line", false); ("red_light", false); ("stop_sign", true)].*1
  ∧ outcome (cycles EVLFObserver_execute [Bench.world; Bench.world] Bench.observer)
    = Returns tt.
Proof.
  assert (rgbd Bench.world = Returns (Some (Some 0.5%Q))) as H1 by reflexivity.
  assert (pipeline_call (Some 0.5%Q) (pipeline Bench.observer)
          = ([("horizontal_line", false); ("red_light", false); ("stop_sign", true)],
             None)) as H2 by reflexivity.
  assert (pipeline_call (Some 0.5%Q)
            [("horizontal_line", false); ("red_light", false); ("stop_sign", true)]
          = ([("horizontal_line", false); ("red_light", false); ("stop_sign", true)],
             None)) as H3 by reflexivity.
  assert (NoDup [("horizontal_line", false); ("red_light", false);
                 ("stop_sign", true)].*1) as H4
    by (apply (bool_decide_unpack _); vm_compute; reflexivity).
  destruct (observer_last_detection_wins Bench.world Bench.world Bench.observer
              (Some 0.5%Q) (Some 0.5%Q) _ _ H1 H2 H1 H3 H4 H4) as (Ho & _).
  exact (conj H1 (conj H2 (conj H4 Ho))).
Defined.

(** A horizontal line ahead: the command stays below the policy's 0.1. *)
Lemma throttle_within_policy_throttle_bench :
  ((Q2R 0.1 * Rabs (cos (Q2R 2.0 * Q2R 0.5)) * Q2R 0.67)%R, Q2R 0.5)
    ∈ commands (trace (EVLFControl_execute Bench.world Bench.at_horizontal_line))
  ∧ (Rabs (Q2R 0.1 * Rabs (cos (Q2R 2.0 * Q2R 0.5)) * Q2R 0.67) <= Rabs (Q2R 0.1))%R.
Proof.
  assert (((Q2R 0.1 * Rabs (cos (Q2R 2.0 * Q2R 0.5)) * Q2R 0.67)%R, Q2R 0.5)
            ∈ commands (trace (EVLFControl_execute Bench.world Bench.at_horizontal_line)))
    as H1 by (apply list_elem_of_here).
  exact (conj H1 (EVLFControl_throttle_within_policy_throttle
                    Bench.world Bench.at_horizontal_line _ _ H1)).
Defined.

(** The same frame for [VLFCar]. *)
Lemma VLFCar_throttle_within_policy_throttle_bench :
  ((Q2R 0.1 * Rabs (cos (Q2R 2.05 * Q2R 0.5)))%R, Q2R 0.5)
    ∈ commands (trace (VLFCar_execute Bench.world (car Bench.no_event)))
  ∧ (Rabs (Q2R 0.1 * Rabs (cos (Q2R 2.05 * Q2R 0.5))) <= Rabs (Q2R 0.1))%R.
Proof.
  assert (((Q2R 0.1 * Rabs (cos (Q2R 2.05 * Q2R 0.5)))%R, Q2R 0.5)
            ∈ commands (trace (VLFCar_execute Bench.world (car Bench.no_event))))
    as H1 by (apply list_elem_of_here).
  exact (conj H1 (VLFCar_throttle_within_policy_throttle
                    Bench.world (car Bench.no_event) _ _ H1)).
Defined.

(** ** A bench with a point at infinity

    The reals with one infinite value added, which is where [math.cos]
    raises.  Signs and NaN are left out: infinity is only ever multiplied by
    the literals 2.0 and 2.05 here. *)

Module Overflow.

Inductive xreal : Type :=
| Finite (x : R)
| Infinity.

#[export] Instance xreal_FloatOps : FloatOps xreal := {|
  lit q := Finite (Q2R q);
  fmul a b :=
    match a, b with
    | Finite x, Finite y => Finite (x * y)
    | _, _ => Infinity
    end;
  fabs a :=
    match a with
    | Finite x => Finite (Rabs x)
    | Infinity => Infinity
    end;
  fcos a :=
    match a with
    | Finite x => Some (Finite (cos x))
    | Infinity => None
    end;
|}.

(** A policy that answers every frame with an infinite steering. *)
Record lost_policy : Type := {
  lost_steering : xreal;
  lost_start : xreal;
}.

#[export] Instance lost_policy_ops : VisualLineFollowing xreal unit lost_policy := {|
  steering := lost_steering;
  throttle _ := Finite (Q2R 0.1);
  execute_policy _ p :=
    ({| lost_steering := Infinity; lost_start := lost_start p |}, None);
  set_policy_start t p := {| lost_steering := lost_steering p; lost_start := t |};
|}.

Definition world : World xreal unit :=
  {| front_csi := Returns tt; rgbd := Returns None; time_time := Finite (Q2R 12) |}.

Definition control : @EVLFControl xreal lost_policy :=
  EVLFControl_init {| event := false; event_types := ∅ |}
    (VLFCar_init {| lost_steering := Finite (Q2R 0); lost_start := Finite (Q2R 0) |}
       (Finite (Q2R 0))).

End Overflow.

Import Overflow.

(** An infinite steering: the control cycle fails after it has set
    [self.start] to the clock. *)
Lemma cosine_error_ends_control_cycle_bench :
  outcome (handle_events Overflow.world Overflow.control) = Returns tt
  ∧ front_csi Overflow.world = Returns tt
  ∧ execute_policy tt (policy (car Overflow.control))
    = ({| lost_steering := Infinity; lost_start := Finite (Q2R 0) |}, None)
  ∧ fcos (fmul (lit 2.0) Infinity) = None
  ∧ outcome (EVLFControl_execute Overflow.world Overflow.control)
    = Raises (ValueError "math domain error")
  ∧ start (car (final (EVLFControl_execute Overflow.world Overflow.control)))
    = Finite (Q2R 12).
Proof.
  assert (outcome (handle_events Overflow.world Overflow.control) = Returns tt)
    as H1 by reflexivity.
  assert (front_csi Overflow.world = Returns tt) as H2 by reflexivity.
  assert (execute_policy tt (policy (car Overflow.control))
          = ({| lost_steering := Infinity; lost_start := Finite (Q2R 0) |}, None))
    as H3 by reflexivity.
  assert (fcos (fmul (lit 2.0) Infinity) = None) as H4 by reflexivity.
  destruct (cosine_error_ends_control_cycle Overflow.world Overflow.control tt _
              H1 H2 H3 H4) as (Ho & _ & _ & _ & _ & Hs).
  exact (conj H1 (conj H2 (conj H3 (conj H4 (conj Ho Hs))))).
Defined.

(** The same steering under [VLFCar.execute]. *)
Lemma cosine_error_leaves_VLFCar_execute_bench :
  front_csi Overflow.world = Returns tt
  ∧ execute_policy tt (policy (car Overflow.control))
    = ({| lost_steering := Infinity; lost_start := Finite (Q2R 0) |}, None)
  ∧ fcos (fmul (lit 2.05) Infinity) = None
  ∧ outcome (VLFCar_execute Overflow.world (car Overflow.control))
    = Raises (ValueError "math domain error")
  ∧ commands (trace (VLFCar_execute Overflow.world (car Overflow.control))) = [].
Proof.
  assert (front_csi Overflow.world = Returns tt) as H2 by reflexivity.
  assert (execute_policy tt (policy (car Overflow.control))
          = ({| lost_steering := Infinity; lost_start := Finite (Q2R 0) |}, None))
    as H3 by reflexivity.
  assert (fcos (fmul (lit 2.05) Infinity) = None) as H4 by reflexivity.
  destruct (cosine_error_leaves_VLFCar_execute Overflow.world (car Overflow.control)
              tt _ H2 H3 H4) as (Ho & _ & Hc & _).
  exact (conj H2 (conj H3 (conj H4 (conj Ho Hc)))).
Defined.

End Qcar.

(** * [core/util.py] *)

Module Util.

(** What a call may end in: it returns, it raises, or it never comes back
    (a blocking [put] without timeout on a full queue nobody drains). *)
Inductive exn : Type :=
| Full                                  (* queue.Full *)
| Empty                                 (* queue.Empty *)
| AttributeError (message : string)
| TypeError (message : string).

Inductive ending (A : Type) : Type :=
| Returns (a : A)
| Raises (e : exn)
| Blocks.
Arguments Returns {A} a.
Arguments Raises {A} e.
Arguments Blocks {A}.

(** The queue of [multiprocessing.Queue(maxsize)], open, as the sending
    process sees it.  [maxsize <= 0] means no bound. *)
Record BoundedQueue (A : Type) : Type := {
  maxsize : Z;
  items : list A;
}.
Arguments maxsize {A} _.
Arguments items {A} _.

Definition full {A} (q : BoundedQueue A) : bool :=
  (0 <? maxsize q)%Z && (maxsize q <=? Z.of_nat (length (items q)))%Z.

Section Consumers.

(** The other end of the queue.  While a blocking [put] waits on a full
    queue that holds [n] items, the consuming processes take
    [taken_while_waiting n] of them, oldest first, before the wait is over
    (with a timeout: before it expires); 0 says that nobody takes any. *)
Variable taken_while_waiting : nat → nat.

(** [q.put(item, block, timeout)].  With room the item is queued at once.
    On a full queue a call with [block] false raises [queue.Full] at once; a
    blocking call waits for a free slot and queues the item as soon as a
    consumer has made one; if none does, it raises [queue.Full] when the
    timeout expires and waits forever when there is no timeout. *)
Definition put {A} (q : BoundedQueue A) (item : A) (block : bool) (timeout : option Q)
  : ending unit * BoundedQueue A :=
  if full q then
    if block then
      match taken_while_waiting (length (items q)) with
      | S n =>
          (Returns tt,
           {| maxsize := maxsize q; items := drop (S n) (items q) ++ [item] |})
      | O =>
          match timeout with
          | None => (Blocks, q)
          | Some _ => (Raises Full, q)
          end
      end
    else (Raises Full, q)
  else (Returns tt, {| maxsize := maxsize q; items := items q ++ [item] |}).

(** [q.get_nowait()] *)
Definition get_nowait {A} (q : BoundedQueue A) : ending A * BoundedQueue A :=
  match items q with
  | [] => (Raises Empty, q)
  | x :: rest => (Returns x, {| maxsize := maxsize q; items := rest |})
  end.

(** The names of an [except] clause.  The module's [Queue] is what
    [from multiprocessing import Queue] binds: the factory method of the
    default context, a function object.  It carries no exception classes
    ([Full] and [Empty] are defined in module [queue]), so reading any such
    attribute off it raises [AttributeError]. *)
Inductive pyobject : Type :=
| Function (name : string)              (* a [def] with no attributes set on it *)
| ExceptionClass (e : exn).

Definition Queue : pyobject := Function "Queue".

(** [o.name], for the names of exception classes. *)
Definition getattr (o : pyobject) (name : string) : ending pyobject :=
  match o with
  | Function _ =>
      Raises (AttributeError
                ("'function' object has no attribute '" +:+ name +:+ "'"))
  | ExceptionClass _ =>
      Raises (AttributeError
                ("type object has no attribute '" +:+ name +:+ "'"))
  end.

Definition exn_eqb (a b : exn) : bool :=
  match a, b with
  | Full, Full | Empty, Empty => true
  | AttributeError _, AttributeError _ => true
  | TypeError _, TypeError _ => true
  | _, _ => false
  end.

(** [try: body except <clause>: handler], the clause being an expression
    that is evaluated when an exception arrives at it. *)
Definition try_except {A S} (body : ending A * S) (clause : ending pyobject)
    (handler : S → ending A * S) : ending A * S :=
  match body with
  | (Raises e, s) =>
      match clause with
      | Returns (ExceptionClass c) => if exn_eqb e c then handler s else (Raises e, s)
      | Returns (Function _) =>
          (Raises (TypeError
             "catching classes that do not inherit from BaseException is not allowed"),
           s)
      | Raises e' => (Raises e', s)
      | Blocks => (Blocks, s)
      end
  | done => done
  end.

(** The body of the [except] clause of [handle_interprocess]. *)
Definition handle_interprocess_handler {A} (item : A) (block : bool)
    (timeout : option Q) (q : BoundedQueue A) : ending unit * BoundedQueue A :=
  match get_nowait q with
  | (Returns _, q') => put q' item block timeout
  | (Raises e, q') => (Raises e, q')
  | (Blocks, q') => (Blocks, q')
  end.

(** [handle_interprocess] *)
Definition handle_interprocess {A} (data_queue : BoundedQueue A) (item : A)
    (block : bool) (timeout : option Q) : ending unit * BoundedQueue A :=
  try_except
    (put data_queue item block timeout)
    (getattr Queue "Full")
    (handle_interprocess_handler item block timeout).

(** A queue for one item that already holds one. *)
Definition a_full_queue : BoundedQueue Z := {| maxsize := 1; items := [1%Z] |}.

(** With room in the queue the item is appended and the call returns. *)
Lemma handle_interprocess_room {A} (q : BoundedQueue A) (item : A) block timeout :
  full q = false →
  handle_interprocess q item block timeout =
    (Returns tt, {| maxsize := maxsize q; items := items q ++ [item] |}).
Proof. intros Hroom. unfold handle_interprocess, put. by rewrite Hroom. Qed.

(** C10, where it breaks.  On a full queue with [block=False] the first
    [put] raises [queue.Full]; matching it against [Queue.Full] raises
    [AttributeError], which leaves the function with the queue as it was:
    nothing removed, the item not inserted. *)
Theorem handle_interprocess_full_queue_raises :
  handle_interprocess a_full_queue 2%Z false None =
    (Raises (AttributeError "'function' object has no attribute 'Full'"),
     a_full_queue).
Proof. reflexivity. Qed.

(** The same for every full queue and every call that gives up: one that
    does not wait, or one whose timeout expires with no slot freed. *)
Lemma handle_interprocess_full {A} (q : BoundedQueue A) (item : A) block timeout :
  full q = true →
  block = false
  ∨ (is_Some timeout ∧ taken_while_waiting (length (items q)) = 0) →
  handle_interprocess q item block timeout =
    (Raises (AttributeError "'function' object has no attribute 'Full'"), q).
Proof.
  intros Hfull Hnowait. unfold handle_interprocess, put. rewrite Hfull.
  destruct block; [|done].
  destruct Hnowait as [|[[t ->] ->]]; done.
Qed.

(** The handler itself is sound: on a queue filled to its bound the oldest
    item goes and the new one comes. *)
Lemma handle_interprocess_handler_full {A} (q : BoundedQueue A) (item : A) block timeout :
  full q = true →
  (Z.of_nat (length (items q)) <= maxsize q)%Z →
  handle_interprocess_handler item block timeout q =
    (Returns tt, {| maxsize := maxsize q; items := tail (items q) ++ [item] |}).
Proof.
  unfold handle_interprocess_handler, get_nowait, put, full.
  destruct q as [m [|x rest]]; cbn [items maxsize length tail].
  - intros [Hpos%Z.ltb_lt Hle%Z.leb_le]%andb_prop _. cbn in Hle. lia.
  - intros [Hpos _]%andb_prop Hinv. rewrite Hpos. cbn [andb].
    destruct (m <=? Z.of_nat (length rest))%Z eqn:E; [|done].
    apply Z.leb_le in E. rewrite Nat2Z.inj_succ in Hinv. lia.
Qed.

(** ** More on [handle_interprocess] *)

(** X14.  The [except] body of [handle_interprocess] never runs, so the
    function itself never takes an item out of the queue: it ends as its
    first [put] ends and leaves the queue as that [put] left it, except that
    whatever the [put] raises comes out as [AttributeError].  [queue.Full]
    and [queue.Empty] never leave it. *)
Theorem handle_interprocess_never_drops {A} (q : BoundedQueue A) (item : A)
    (block : bool) (timeout : option Q) :
  let r := handle_interprocess q item block timeout in
  r = match put q item block timeout with
      | (Raises _, q') =>
          (Raises (AttributeError "'function' object has no attribute 'Full'"), q')
      | ended => ended
      end
  ∧ r.2 = (put q item block timeout).2
  ∧ r.1 ≠ Raises Full
  ∧ r.1 ≠ Raises Empty.
Proof.
  unfold handle_interprocess.
  destruct (put q item block timeout) as [[[]|e|] q']; cbn; by repeat split.
Qed.

(** Consecutive calls [handle_interprocess(q, x, block, timeout)], one per
    item; an exception or a call that never returns ends the sequence. *)
Fixpoint handle_interprocess_all {A} (q : BoundedQueue A) (xs : list A)
    (block : bool) (timeout : option Q) : ending unit * BoundedQueue A :=
  match xs with
  | [] => (Returns tt, q)
  | x :: rest =>
      match handle_interprocess q x block timeout with
      | (Returns _, q') => handle_interprocess_all q' rest block timeout
      | stopped => stopped
      end
  end.

Lemma full_spec {A} (q : BoundedQueue A) :
  full q = true ↔ (0 < maxsize q ∧ maxsize q <= Z.of_nat (length (items q)))%Z.
Proof. unfold full. rewrite andb_true_iff, Z.ltb_lt, Z.leb_le. tauto. Qed.

Lemma full_false_spec {A} (q : BoundedQueue A) :
  full q = false ↔ (maxsize q <= 0 ∨ Z.of_nat (length (items q)) < maxsize q)%Z.
Proof.
  destruct (full q) eqn:E.
  - apply full_spec in E. split; [done|lia].
  - split; [|done]. intros _.
    destruct (Z_lt_le_dec 0 (maxsize q)) as [Hpos|]; [|by left].
    destruct (Z_lt_le_dec (Z.of_nat (length (items q))) (maxsize q)); [by right|].
    assert (full q = true) by (apply full_spec; lia). congruence.
Qed.

(** X15.  While the queue has room (it is unbounded, or the items sent fit
    under its bound) consecutive calls all return and the items are queued
    in the order they were sent, behind what was there. *)
Theorem handle_interprocess_all_in_order {A} (q : BoundedQueue A) (xs : list A)
    (block : bool) (timeout : option Q) :
  (maxsize q <= 0 ∨ Z.of_nat (length (items q) + length xs) <= maxsize q)%Z →
  handle_interprocess_all q xs block timeout =
    (Returns tt, {| maxsize := maxsize q; items := items q ++ xs |}).
Proof.
  revert q. induction xs as [|x xs IH]; intros q Hroom.
  - cbn. rewrite app_nil_r. by destruct q.
  - cbn [handle_interprocess_all].
    rewrite handle_interprocess_room.
    + rewrite IH; cbn [maxsize items].
      * by rewrite <- app_assoc.
      * rewrite length_app. cbn [length] in *. lia.
    + apply full_false_spec. cbn [length] in Hroom. lia.
Qed.

(** X16.  Sending more than fits, without waiting: the calls return until
    the queue is full, the next one raises [AttributeError], and the queue
    then holds the earliest items sent while the later ones are lost (the
    oldest queued item is never the one given up). *)
Theorem handle_interprocess_all_overflow {A} (q : BoundedQueue A) (xs : list A)
    (timeout : option Q) :
  (0 < maxsize q)%Z →
  length (items q) ≤ Z.to_nat (maxsize q) →
  Z.to_nat (maxsize q) - length (items q) < length xs →
  handle_interprocess_all q xs false timeout =
    (Raises (AttributeError "'function' object has no attribute 'Full'"),
     {| maxsize := maxsize q;
        items := items q ++ take (Z.to_nat (maxsize q) - length (items q)) xs |}).
Proof.
  revert q. induction xs as [|x xs IH]; intros q Hpos Hinv Hmore.
  - cbn in Hmore. lia.
  - cbn [handle_interprocess_all].
    destruct (full q) eqn:Hfull.
    + rewrite handle_interprocess_full by auto.
      apply full_spec in Hfull.
      replace (Z.to_nat (maxsize q) - length (items q)) with 0 by lia.
      cbn. rewrite app_nil_r. by destruct q.
    + rewrite handle_interprocess_room by done.
      apply full_false_spec in Hfull.
      rewrite IH; cbn [maxsize items]; rewrite ?length_app; cbn [length] in *;
        try lia.
      replace (Z.to_nat (maxsize q) - length (items q))
        with (S (Z.to_nat (maxsize q) - (length (items q) + 1))) by lia.
      cbn [take]. by rewrite <- app_assoc.
Qed.

End Consumers.

(** A queue for three items that holds one. *)
Definition a_queue_for_three : BoundedQueue Z := {| maxsize := 3; items := [1%Z] |}.

(** Two more items fit. *)
Lemma handle_interprocess_all_in_order_example :
  (maxsize a_queue_for_three <= 0
   ∨ Z.of_nat (length (items a_queue_for_three) + length [2; 3]%Z)
     <= maxsize a_queue_for_three)%Z
  ∧ handle_interprocess_all (λ _, 0) a_queue_for_three [2; 3]%Z true None =
      (Returns tt, {| maxsize := 3; items := [1; 2; 3]%Z |}).
Proof.
  assert (maxsize a_queue_for_three <= 0
          ∨ Z.of_nat (length (items a_queue_for_three) + length [2; 3]%Z)
            <= maxsize a_queue_for_three)%Z as H1 by (right; cbn; lia).
  exact (conj H1 (handle_interprocess_all_in_order (λ _, 0) a_queue_for_three
                    [2; 3]%Z true None H1)).
Defined.

(** Four more do not: the last two are lost. *)
Lemma handle_interprocess_all_overflow_example :
  (0 < maxsize a_queue_for_three)%Z
  ∧ length (items a_queue_for_three) ≤ Z.to_nat (maxsize a_queue_for_three)
  ∧ Z.to_nat (maxsize a_queue_for_three) - length (items a_queue_for_three)
    < length [2; 3; 4; 5]%Z
  ∧ handle_interprocess_all (λ _, 0) a_queue_for_three [2; 3; 4; 5]%Z false None =
      (Raises (AttributeError "'function' object has no attribute 'Full'"),
       {| maxsize := 3; items := [1; 2; 3]%Z |}).
Proof.
  assert (0 < maxsize a_queue_for_three)%Z as H1 by (cbn; lia).
  assert (length (items a_queue_for_three) ≤ Z.to_nat (maxsize a_queue_for_three))
    as H2 by (cbn; lia).
  assert (Z.to_nat (maxsize a_queue_for_three) - length (items a_queue_for_three)
          < length [2; 3; 4; 5]%Z) as H3 by (cbn; lia).
  exact (conj H1 (conj H2 (conj H3
           (handle_interprocess_all_overflow (λ _, 0) a_queue_for_three
              [2; 3; 4; 5]%Z None H1 H2 H3)))).
Defined.

End Util.

(** * [sensor_interfacing/qlabs_setup.py] *)

Module QlabsSetup.

(** The calls [setup] makes, in the order it makes them. *)
Inductive call (V Model : Type) : Type :=
| OsSystem (command : string)                  (* os.system(command) *)
| Print (message : string)                     (* print(message) *)
| QlabsOpen (host : string)                    (* qlabs.open(host) *)
| Quit                                         (* quit() *)
| DestroyAllSpawnedActors                      (* qlabs.destroy_all_spawned_actors() *)
| TerminateAllRealTimeModels     (* QLabsRealTime().terminate_all_real_time_models() *)
| QCarSpawnId (actorNumber : Z) (location rotation : V) (waitForConfirmation : bool)
                                               (* hqcar.spawn_id(...) *)
| FreeCameraSpawn (location rotation : list Q) (* hcamera.spawn(location, rotation) *)
| QCarPossess                                  (* hqcar.possess() *)
| StartRealTimeModel (rtModel : Model).  (* QLabsRealTime().start_real_time_model(rtModel) *)
Arguments OsSystem {V Model} command.
Arguments Print {V Model} message.
Arguments QlabsOpen {V Model} host.
Arguments Quit {V Model}.
Arguments DestroyAllSpawnedActors {V Model}.
Arguments TerminateAllRealTimeModels {V Model}.
Arguments QCarSpawnId {V Model} actorNumber location rotation waitForConfirmation.
Arguments FreeCameraSpawn {V Model} location rotation.
Arguments QCarPossess {V Model}.
Arguments StartRealTimeModel {V Model} rtModel.

(** How the script ends. *)
Inductive ending : Type :=
| Returns                                      (* falls off the end of [setup] *)
| Exits.                                       (* [quit()] raised SystemExit *)

Section Script.
Context {V Model : Type}.

Local Abbreviation call := (call V Model).

Definition Script : Type := ending * list call.

Definition do (c : call) : Script := (Returns, [c]).

Definition seq (a b : Script) : Script :=
  match a with
  | (Returns, t) => (b.1, t ++ b.2)
  | (Exits, t) => (Exits, t)
  end.

Definition quit : Script := (Exits, [Quit]).

(** [try: qlabs.open(host); <then> except: <handler>] with a bare [except]:
    whatever [open] raises sends control to the handler. *)
Definition try_open (host : string) (open_raises : bool) (and_then handler : Script)
  : Script :=
  seq (do (QlabsOpen host)) (if open_raises then handler else and_then).

Local Infix ">>" := seq (at level 61, left associativity).

(** [setup(initialPosition, initialOrientation, rtModel)]; [open_raises]
    tells whether the simulator refuses the connection, that is, whether
    [qlabs.open] raises. *)
Definition setup (open_raises : bool) (initialPosition initialOrientation : V)
    (rtModel : Model) : Script :=
  do (OsSystem "cls") >>
  do (Print "Connecting to QLabs...") >>
  try_open "localhost" open_raises
    (do (Print "Connected to QLabs"))
    (do (Print "Unable to connect to QLabs") >> quit) >>
  do DestroyAllSpawnedActors >>
  do TerminateAllRealTimeModels >>
  do (QCarSpawnId 0 initialPosition initialOrientation true) >>
  do (FreeCameraSpawn [8.484; 1.973; 12.209]%Q [-0; 0.748; 0.792]%Q) >>
  do QCarPossess >>
  do (StartRealTimeModel rtModel).

(** The calls that act on the simulation. *)
Definition acts_on_simulation (c : call) : bool :=
  match c with
  | DestroyAllSpawnedActors | TerminateAllRealTimeModels | QCarSpawnId _ _ _ _
  | FreeCameraSpawn _ _ | QCarPossess | StartRealTimeModel _ => true
  | _ => false
  end.

(** C9.  [setup] is a straight script.  When [qlabs.open] raises, it prints
    the failure message and quits, and no call has acted on the simulation.
    When [qlabs.open] returns, [setup] returns after these calls on the
    simulation, each made once and in this order: destroy all spawned actors,
    terminate all real-time models, spawn the QCar (actor 0) at the given
    position and orientation, spawn the camera and possess the car, start
    the real-time model. *)
Theorem setup_runs_once (initialPosition initialOrientation : V) (rtModel : Model) :
  setup true initialPosition initialOrientation rtModel =
    (Exits, [OsSystem "cls"; Print "Connecting to QLabs..."; QlabsOpen "localhost";
             Print "Unable to connect to QLabs"; Quit])
  ∧ List.filter acts_on_simulation
      (setup true initialPosition initialOrientation rtModel).2 = []
  ∧ (setup false initialPosition initialOrientation rtModel).1 = Returns
  ∧ List.filter acts_on_simulation
      (setup false initialPosition initialOrientation rtModel).2 =
      [DestroyAllSpawnedActors; TerminateAllRealTimeModels;
       QCarSpawnId 0 initialPosition initialOrientation true;
       FreeCameraSpawn [8.484; 1.973; 12.209]%Q [-0; 0.748; 0.792]%Q;
       QCarPossess; StartRealTimeModel rtModel]
  ∧ List.filter (λ c, negb (acts_on_simulation c))
      (setup false initialPosition initialOrientation rtModel).2 =
      [OsSystem "cls"; Print "Connecting to QLabs..."; QlabsOpen "localhost";
       Print "Connected to QLabs"].
Proof. by repeat split. Qed.

End Script.

End QlabsSetup.
